(** * goodreads_grapher: a shallow embedding of [goodreads_grapher/grapher.py]

    The module turns a Goodreads author or series URL into a scatter chart of
    average ratings.  The embedding follows the file top to bottom:
    identifier extraction ([author_url_to_author_id], [series_url_to_series_id]),
    paginated retrieval ([author_books_total_pages], [author_books_for_page],
    [author_books_all_pages] and the first half of [graph_series]), the
    data-frame steps, the four chart functions, the cut-off prompt loop and
    [main].

    Python values are modelled as follows.
    - [str] is [string]; the functions that walk a string work on [list ascii].
    - [int] is [Z].
    - An exception is identified by the name of its class ([exn]); a call either
      returns a value or raises ([result]).
    - The three external collaborators are explicit: the Goodreads client [gc]
      is a value passed around as in the source, the pandas / matplotlib calls
      whose behaviour is not fixed by this repository are the fields of
      [Pandas], and the console is the [stdin] field of the [World].
    - A float is a [Rating]: an exact rational, an infinity or NaN. *)

From Stdlib Require Import List ZArith QArith Bool Ascii String Lia.
From Stdlib Require Import Permutation Sorted.
Import ListNotations.

Local Open Scope Z_scope.
Local Open Scope string_scope.
Local Open Scope list_scope.

(** ** Exceptions and results *)

(** A Python exception, identified by the name of its class. *)
Inductive exn : Type :=
| PyExn (class_name : string).

Definition AttributeError : exn := PyExn "AttributeError".
Definition ValueError : exn := PyExn "ValueError".
Definition EOFError : exn := PyExn "EOFError".
Definition KeyError : exn := PyExn "KeyError".

(** The outcome of evaluating a Python expression. *)
Inductive result (A : Type) : Type :=
| Ok (a : A)
| Raise (e : exn).

Arguments Ok {A} a.
Arguments Raise {A} e.

Definition rbind {A B : Type} (r : result A) (k : A -> result B) : result B :=
  match r with
  | Ok a => k a
  | Raise e => Raise e
  end.

(** [[f(x) for x in l]] for a fallible [f]: the first failure, in list order,
    aborts the comprehension. *)
Fixpoint rmap {A B : Type} (f : A -> result B) (l : list A) : result (list B) :=
  match l with
  | [] => Ok []
  | x :: l' =>
      rbind (f x) (fun y => rbind (rmap f l') (fun ys => Ok (y :: ys)))
  end.

(** ** Strings *)

Module PyStr.

Definition chars (s : string) : list ascii := list_ascii_of_string s.

Definition is_digit (c : ascii) : bool :=
  let n := nat_of_ascii c in (Nat.leb 48 n && Nat.leb n 57)%bool.

Definition digit_value (c : ascii) : Z := Z.of_nat (nat_of_ascii c) - 48.

(** Python's ASCII white space: space, tab, line feed, vertical tab, form feed,
    carriage return. *)
Definition is_space (c : ascii) : bool :=
  let n := nat_of_ascii c in
  (Nat.eqb n 32 || (Nat.leb 9 n && Nat.leb n 13))%bool.

Fixpoint starts_with (pat s : list ascii) : bool :=
  match pat, s with
  | [], _ => true
  | _ :: _, [] => false
  | p :: pat', c :: s' => (Ascii.eqb p c && starts_with pat' s')%bool
  end.

(** [s.replace(pat, "")] for a non-empty [pat]: every occurrence found scanning
    left to right is dropped; [skip] counts the characters of the occurrence
    being dropped that are still ahead. *)
Fixpoint remove_from (pat s : list ascii) (skip : nat) : list ascii :=
  match s with
  | [] => []
  | c :: s' =>
      match skip with
      | S k => remove_from pat s' k
      | O =>
          if starts_with pat s
          then remove_from pat s' (Nat.pred (List.length pat))
          else c :: remove_from pat s' O
      end
  end.

Definition replace_with_empty (pat s : list ascii) : list ascii :=
  match pat with
  | [] => s
  | _ :: _ => remove_from pat s O
  end.

(** *** The fragment of [re] the two patterns use *)

Inductive atom : Type :=
| Lit (c : ascii)   (* a literal character *)
| Dot               (* [.]: any character but a line feed *)
| Digit.            (* [\d] *)

Inductive node : Type :=
| One (a : atom)            (* a *)
| Star (a : atom)           (* a*, greedy *)
| GroupPlus (a : atom).     (* (a+), greedy, captured *)

Definition atom_matches (a : atom) (c : ascii) : bool :=
  match a with
  | Lit x => Ascii.eqb x c
  | Dot => negb (Ascii.eqb c "010"%char)
  | Digit => is_digit c
  end.

(** [a*] followed by the rest of the pattern [k]: the longest run first, then
    shorter ones. *)
Fixpoint star_with (a : atom) (k : list ascii -> option (list ascii))
  (s : list ascii) : option (list ascii) :=
  match s with
  | c :: s' =>
      if atom_matches a c
      then match star_with a k s' with
           | Some r => Some r
           | None => k s
           end
      else k s
  | [] => k []
  end.

(** [(a+)] followed by the rest of the pattern [k]; [acc] is the text the group
    has taken so far. *)
Fixpoint plus_with (a : atom)
  (k : list ascii -> list ascii -> option (list ascii))
  (acc s : list ascii) : option (list ascii) :=
  match s with
  | c :: s' =>
      if atom_matches a c
      then match plus_with a k (acc ++ [c]) s' with
           | Some r => Some r
           | None => k (acc ++ [c]) s'
           end
      else None
  | [] => None
  end.

(** Backtracking match of the pattern [p] at the start of [s]; [g] is the text
    captured so far and the result is the text of the group. *)
Fixpoint match_here (p : list node) (g : list ascii) (s : list ascii)
  {struct p} : option (list ascii) :=
  match p with
  | [] => Some g
  | One a :: p' =>
      match s with
      | c :: s' => if atom_matches a c then match_here p' g s' else None
      | [] => None
      end
  | Star a :: p' => star_with a (match_here p' g) s
  | GroupPlus a :: p' => plus_with a (match_here p') [] s
  end.

(** [re.search(p, s)]: the match at the leftmost start position, or [None]. *)
Fixpoint re_search (p : list node) (s : list ascii) : option (list ascii) :=
  match match_here p [] s with
  | Some g => Some g
  | None =>
      match s with
      | [] => None
      | _ :: s' => re_search p s'
      end
  end.

(** *** [int(s)] on a string *)

Fixpoint drop_spaces (s : list ascii) : list ascii :=
  match s with
  | c :: s' => if is_space c then drop_spaces s' else s
  | [] => []
  end.

Definition strip (s : list ascii) : list ascii :=
  rev (drop_spaces (rev (drop_spaces s))).

(** Decimal digits with single underscores between them; [prev_digit] tells
    whether the previous character was a digit, [acc] is the value read. *)
Fixpoint digits_value (s : list ascii) (prev_digit : bool) (acc : Z)
  : option Z :=
  match s with
  | [] => if prev_digit then Some acc else None
  | c :: s' =>
      if is_digit c then digits_value s' true (10 * acc + digit_value c)
      else if (Ascii.eqb c "_"%char && prev_digit)%bool
           then digits_value s' false acc
           else None
  end.

Definition int_chars (s : list ascii) : option Z :=
  match strip s with
  | "-"%char :: ds => option_map Z.opp (digits_value ds false 0)
  | "+"%char :: ds => digits_value ds false 0
  | ds => digits_value ds false 0
  end.

End PyStr.

(** [int(s)]: a [ValueError] when [s] is not an integer literal. *)
Definition py_int (s : string) : result Z :=
  match PyStr.int_chars (PyStr.chars s) with
  | Some n => Ok n
  | None => Raise ValueError
  end.

(** A string of ASCII characters only.  On such strings the character classes
    above are those of Python: [\d] and the digits [int] reads are 0 to 9, and
    the white space [int] strips is the space and the characters 9 to 13.
    Outside ASCII Python also knows other decimal digits and spaces, which
    this embedding does not; the properties that depend on a string being
    rejected are stated for ASCII strings. *)
Definition is_ascii (s : string) : Prop :=
  Forall (fun c => (nat_of_ascii c < 128)%nat) (PyStr.chars s).

(** ** Identifier extraction *)

(** [r".*show\/(\d+)\..*"] *)
Definition author_rgx : list PyStr.node :=
  [PyStr.Star PyStr.Dot;
   PyStr.One (PyStr.Lit "s"); PyStr.One (PyStr.Lit "h");
   PyStr.One (PyStr.Lit "o"); PyStr.One (PyStr.Lit "w");
   PyStr.One (PyStr.Lit "/");
   PyStr.GroupPlus PyStr.Digit;
   PyStr.One (PyStr.Lit ".");
   PyStr.Star PyStr.Dot].

(** [r"(\d+)-.*"] *)
Definition series_rgx : list PyStr.node :=
  [PyStr.GroupPlus PyStr.Digit;
   PyStr.One (PyStr.Lit "-");
   PyStr.Star PyStr.Dot].

(** [int(re.search(rgx, raw).group(1))]: [re.search] gives [None] when nothing
    matches, and [None.group] is an [AttributeError]. *)
Definition search_group_int (rgx : list PyStr.node) (raw : list ascii)
  : result Z :=
  match PyStr.re_search rgx raw with
  | None => Raise AttributeError
  | Some g => py_int (string_of_list_ascii g)
  end.

Definition raw_author_str (url : string) : list ascii :=
  PyStr.replace_with_empty
    (PyStr.chars "https://www.goodreads.com/author/") (PyStr.chars url).

Definition author_url_to_author_id (url : string) : result Z :=
  search_group_int author_rgx (raw_author_str url).

Definition raw_series_str (url : string) : list ascii :=
  PyStr.replace_with_empty
    (PyStr.chars "https://www.goodreads.com/series/") (PyStr.chars url).

Definition series_url_to_series_id (url : string) : result Z :=
  search_group_int series_rgx (raw_series_str url).

Definition ex_author_url : string :=
  "https://www.goodreads.com/author/show/2565.Ian_Fleming".
Definition ex_series_url : string :=
  "https://www.goodreads.com/series/49397-james-bond---extended-series".

(** ** Floats, slices and the pandas calls *)

(** A [float64] cell.  Finite values are kept as exact rationals: the embedding
    does not round. *)
Inductive Rating : Type :=
| Fin (q : Q)
| PosInf
| NegInf
| NaN.

Definition isnan (r : Rating) : bool :=
  match r with
  | NaN => true
  | _ => false
  end.

Module Float64.

(** [num / den] rounded to the nearest integer, ties to the even one
    ([den > 0]). *)
Definition round_half_even (num den : Z) : Z :=
  let q := num / den in
  match (2 * (num mod den) ?= den)%Z with
  | Lt => q
  | Gt => q + 1
  | Eq => if Z.even q then q else q + 1
  end.

Definition scaled_num (a e : Z) : Z := a * 2 ^ Z.max 0 (- e).
Definition scaled_den (b e : Z) : Z := b * 2 ^ Z.max 0 e.

(** The binary exponent at which [a / b] has a 53 bit integer part, for
    positive [a] and [b]: [2^52 <= a / (b * 2^e) < 2^53]. *)
Definition exponent (a b : Z) : Z :=
  let e0 := Z.log2 a - Z.log2 b - 52 in
  if (scaled_num a e0 <? 2 ^ 52 * scaled_den b e0)%Z then e0 - 1 else e0.

(** The 53 bit significand of the double nearest to [a / b]. *)
Definition mantissa (a b : Z) : Z :=
  let e := exponent a b in
  round_half_even (scaled_num a e) (scaled_den b e).

(** [m * 2^e] as a rational. *)
Definition dyadic (m e : Z) : Q :=
  Qred (inject_Z (m * 2 ^ Z.max 0 e) / inject_Z (2 ^ Z.max 0 (- e)))%Q.

(** The double nearest to [q], ties to even.  The exponent range is not
    bounded: the quotients taken here, of two 64 bit integers or of a count of
    books by a page size, are far from the subnormal range, and values beyond
    the largest double (about 1.8e308) are outside the embedding. *)
Definition nearest (q : Q) : Q :=
  match Qnum q with
  | 0 => 0%Q
  | Zpos a =>
      dyadic (mantissa (Zpos a) (Zpos (Qden q)))
             (exponent (Zpos a) (Zpos (Qden q)))
  | Zneg a =>
      Qopp (dyadic (mantissa (Zpos a) (Zpos (Qden q)))
                   (exponent (Zpos a) (Zpos (Qden q))))
  end.

Definition ceil_dyadic (m e : Z) : Z :=
  if (0 <=? e)%Z then m * 2 ^ e else - ((- m) / 2 ^ (- e)).

Definition floor_dyadic (m e : Z) : Z :=
  if (0 <=? e)%Z then m * 2 ^ e else m / 2 ^ (- e).

End Float64.

(** [a / b] on two [int64] columns: numpy converts both to doubles and
    divides them as doubles, without raising on a zero divisor. *)
Definition true_divide (a b : Z) : Rating :=
  if (b =? 0)%Z
  then (if (a =? 0)%Z then NaN else if (0 <? a)%Z then PosInf else NegInf)
  else Fin (Float64.nearest
              (Float64.nearest (inject_Z a) / Float64.nearest (inject_Z b))%Q).

(** The order numpy sorts floats by: [-inf], the finite values, [inf], NaN. *)
Definition rating_leb (x y : Rating) : bool :=
  match x, y with
  | _, NaN => true
  | NaN, _ => false
  | NegInf, _ => true
  | _, NegInf => false
  | _, PosInf => true
  | PosInf, _ => false
  | Fin a, Fin b => Qle_bool a b
  end.

(** The points of one scatter chart: label and average rating. *)
Definition Chart : Type := list (string * Rating).

(** What the code takes from pandas, numpy and matplotlib without fixing it
    itself.
    - [argsort]: [ndarray.argsort(kind="quicksort")], the routine behind
      [sort_values] when no [kind] is passed; it returns the positions of the
      items in ascending order.
    - [astype_float]: [float(s)] on one cell of a string column.
    - [plot_show]: [df.plot(kind="scatter", ...)] followed by [plt.show()]. *)
Class Pandas : Type := {
  argsort : list Rating -> list nat;
  astype_float : string -> result Rating;
  plot_show : Chart -> result unit
}.

(** The end of the slice [l[:stop]] (Python's [slice.indices]). *)
Definition slice_stop (len : nat) (stop : Z) : nat :=
  if (stop <? 0)%Z
  then Z.to_nat (Z.max 0 (stop + Z.of_nat len))
  else Z.to_nat (Z.min stop (Z.of_nat len)).

(** [df[:stop]] *)
Definition py_slice {A : Type} (df : list A) (stop : Z) : list A :=
  firstn (slice_stop (List.length df) stop) df.

(** [df.take(indexer)] for an indexer within range. *)
Definition take {A : Type} (df : list A) (indexer : list nat) : list A :=
  flat_map (fun i => match nth_error df i with
                     | Some row => [row]
                     | None => []
                     end) indexer.

(** [pandas.core.sorting.nargsort(items, kind="quicksort", ascending=False,
    na_position="last")], the indexer [sort_values] computes for one sort
    column: the non-NaN items are reversed, sorted ascending, the positions
    reversed again, and the NaN positions appended. *)
Definition nargsort_desc `{Pandas} (items : list Rating) : list nat :=
  let idx := seq 0 (List.length items) in
  let mask := fun i => isnan (nth i items NaN) in
  let non_nan_idx := rev (filter (fun i => negb (mask i)) idx) in
  let non_nans := map (fun i => nth i items NaN) non_nan_idx in
  let nan_idx := filter mask idx in
  let indexer := rev (map (fun j => nth j non_nan_idx O) (argsort non_nans)) in
  indexer ++ nan_idx.

(** [df.sort_values([key], ascending=False)] *)
Definition sort_values_desc `{Pandas} {A : Type} (key : A -> Rating)
  (df : list A) : list A :=
  take df (nargsort_desc (map key df)).

(** A column read as an attribute, [df.name]: a frame built from an empty list
    of records has no columns, and the attribute lookup fails. *)
Definition column {A B : Type} (df : list A) (field : A -> B)
  : result (list B) :=
  match df with
  | [] => Raise AttributeError
  | _ :: _ => Ok (map field df)
  end.

(** The exact ceiling of [total / per_page], for a positive page size. *)
Definition ceil_div (total per_page : Z) : Z := - ((- total) / per_page).

(** [math.ceil(total / per_page)] as Python computes it, for a positive page
    size: [/] on two integers gives the double nearest to the quotient, and the
    ceiling is taken of that double. *)
Definition py_ceil_div (total per_page : Z) : Z :=
  match total with
  | 0 => 0
  | Zpos _ =>
      Float64.ceil_dyadic (Float64.mantissa total per_page)
                          (Float64.exponent total per_page)
  | Zneg _ =>
      - Float64.floor_dyadic (Float64.mantissa (- total) per_page)
                             (Float64.exponent (- total) per_page)
  end.

(** [range(lo, hi)] *)
Definition py_range (lo hi : Z) : list Z :=
  map (fun k => lo + Z.of_nat k) (seq 0 (Z.to_nat (hi - lo))).

Definition DEFAULT_AUTHOR_BOOKS_PER_PAGE : Z := 30.
Definition DEFAULT_SERIES_BOOKS_PER_PAGE : Z := 100.

(** ** The Goodreads client, the console and the state of a run *)

(** One call [gc.request(endpoint, {"id": id, "page": page})]; [page] is [None]
    when the parameter is not passed. *)
Record Request : Type := {
  endpoint : string;
  req_id : Z;
  req_page : option Z
}.

(** The payloads of a series listing: [work["work"]["best_book"]],
    [work["work"]] and one entry of [series_work]. *)
Record BestBook : Type := {
  bb_title : string
}.

Record Work : Type := {
  w_ratings_sum : string;
  w_ratings_count : string;
  w_average_rating : option string;   (* the [average_rating] key of the work
                                         or of its best book, if there is one *)
  best_book : BestBook
}.

Record SeriesWork : Type := {
  work : Work;
  user_position : string
}.

(** One entry of [resp["author"]["books"]["book"]], as [GoodreadsBook] reads it:
    [id_text] is [book["id"]["#text"]], [authors] the [gid]s of the credited
    authors. *)
Record BookDict : Type := {
  id_text : string;
  title_without_series : string;
  bd_average_rating : string;
  bd_ratings_count : Z;
  bd_authors : list Z
}.

(** A decoded response.  [AuthorList] carries
    [resp["author"]["books"]["@total"]] and [...["book"]]; [SeriesShow] carries
    [resp["series"]["series_works_count"]] and
    [resp["series"]["series_works"]["series_work"]]. *)
Inductive Response : Type :=
| AuthorList (total : string) (book : list BookDict)
| SeriesShow (series_works_count : string) (series_work : list SeriesWork).

(** The client answers a request given the requests made before it, so that
    two reads of the same listing need not agree. *)
Record GoodreadsClient : Type := {
  respond : list Request -> Request -> result Response
}.

Record World : Type := {
  requests : list Request;   (* the calls made to the client, oldest first *)
  stdin : list string;       (* the console lines not read yet *)
  charts : list Chart        (* the charts handed to matplotlib, oldest first *)
}.

(** A computation that may raise and that reads and extends the [World]. *)
Definition M (A : Type) : Type := World -> result A * World.

Definition ret {A : Type} (a : A) : M A := fun w => (Ok a, w).

Definition lift {A : Type} (r : result A) : M A := fun w => (r, w).

Definition bind {A B : Type} (m : M A) (k : A -> M B) : M B :=
  fun w =>
    match m w with
    | (Ok a, w') => k a w'
    | (Raise e, w') => (Raise e, w')
    end.

Notation "x <- m ;; k" := (bind m (fun x => k))
  (at level 61, m at next level, right associativity).
Notation "m ;;; k" := (bind m (fun _ => k))
  (at level 61, right associativity).

(** [[f(x) for x in l]] and [for x in l: f(x)] *)
Fixpoint mapM {A B : Type} (f : A -> M B) (l : list A) : M (list B) :=
  match l with
  | [] => ret []
  | x :: l' => y <- f x ;; ys <- mapM f l' ;; ret (y :: ys)
  end.

Fixpoint for_each {A : Type} (l : list A) (body : A -> M unit) : M unit :=
  match l with
  | [] => ret tt
  | x :: l' => body x ;;; for_each l' body
  end.

Definition add_requests (w : World) (rs : list Request) : World :=
  {| requests := requests w ++ rs; stdin := stdin w; charts := charts w |}.

(** [gc.request(...)] *)
Definition request (gc : GoodreadsClient) (r : Request) : M Response :=
  fun w => (respond gc (requests w) r, add_requests w [r]).

(** [input(prompt)] *)
Definition input : M string :=
  fun w =>
    match stdin w with
    | [] => (Raise EOFError, w)
    | line :: rest =>
        (Ok line,
         {| requests := requests w; stdin := rest; charts := charts w |})
    end.

Definition add_chart (w : World) (c : Chart) : World :=
  {| requests := requests w; stdin := stdin w; charts := charts w ++ [c] |}.

(** [frame.plot(kind="scatter", ...)] and [plt.show()] *)
Definition plot_scatter `{Pandas} (c : Chart) : M unit :=
  fun w => (plot_show c, add_chart w c).

Definition author_books (resp : Response) : result (string * list BookDict) :=
  match resp with
  | AuthorList total book => Ok (total, book)
  | SeriesShow _ _ => Raise KeyError
  end.

Definition series_works (resp : Response) : result (string * list SeriesWork) :=
  match resp with
  | SeriesShow count series_work => Ok (count, series_work)
  | AuthorList _ _ => Raise KeyError
  end.

(** ** The series frame *)

Module SeriesDf.

(** One record of [series_books]: the work, its best book and the position
    merged, [best_book] deleted. *)
Record Book : Type := {
  b_title : string;
  b_ratings_sum : string;
  b_ratings_count : string;
  b_average_rating : option string;
  b_user_position : string
}.

(** One row of [series_df] once the three columns are converted. *)
Record Row : Type := {
  title : string;
  ratings_sum : Z;
  ratings_count : Z;
  average_rating : Rating;
  user_position : string
}.

End SeriesDf.

Definition series_books (series_work : list SeriesWork) : list SeriesDf.Book :=
  map (fun w =>
         {| SeriesDf.b_title := bb_title (best_book (work w));
            SeriesDf.b_ratings_sum := w_ratings_sum (work w);
            SeriesDf.b_ratings_count := w_ratings_count (work w);
            SeriesDf.b_average_rating := w_average_rating (work w);
            SeriesDf.b_user_position := user_position w |})
      series_work.

Definition series_row (b : SeriesDf.Book) (sum_count : Z * Z) : SeriesDf.Row :=
  {| SeriesDf.title := SeriesDf.b_title b;
     SeriesDf.ratings_sum := fst sum_count;
     SeriesDf.ratings_count := snd sum_count;
     SeriesDf.average_rating := true_divide (fst sum_count) (snd sum_count);
     SeriesDf.user_position := SeriesDf.b_user_position b |}.

Definition OverflowError : exn := PyExn "OverflowError".

(** One cell of [column.astype(int)]: [int(s)], then the store into an
    [int64] array, which overflows outside [-2^63, 2^63). *)
Definition to_int64 (s : string) : result Z :=
  rbind (py_int s) (fun n =>
    if ((- 2 ^ 63 <=? n)%Z && (n <? 2 ^ 63)%Z)%bool
    then Ok n
    else Raise OverflowError).

(** Whether the frame built from [books] has an [average_rating] column: a
    frame has a column for every key that occurs in some record. *)
Definition has_average_rating (books : list SeriesDf.Book) : bool :=
  existsb (fun b => match SeriesDf.b_average_rating b with
                    | Some _ => true
                    | None => false
                    end) books.

(** [pd.DataFrame(series_books)] and the three column assignments of
    [graph_series].  The assignment [series_df.average_rating = ...] replaces
    the column when the frame has one and creates none otherwise; in the
    latter case the selection of ["average_rating"] that opens both chart
    functions raises [KeyError].  That selection is the next thing to run
    after the assignments, before anything is drawn or read, so the error is
    raised here. *)
Definition series_dataframe (books : list SeriesDf.Book)
  : result (list SeriesDf.Row) :=
  rbind (column books SeriesDf.b_ratings_sum) (fun sums =>
  rbind (rmap to_int64 sums) (fun sums =>
  rbind (column books SeriesDf.b_ratings_count) (fun counts =>
  rbind (rmap to_int64 counts) (fun counts =>
  if has_average_rating books
  then Ok (map (fun bc => series_row (fst bc) (snd bc))
               (combine books (combine sums counts)))
  else Raise KeyError)))).

(** ** The author frame *)

Record GoodreadsBook : Type := {
  id : Z;
  book_dict : BookDict
}.

Definition authors (book : GoodreadsBook) : list Z := bd_authors (book_dict book).
Definition ratings_count (book : GoodreadsBook) : Z :=
  bd_ratings_count (book_dict book).

Module AuthorDf.

Record Row : Type := {
  book : GoodreadsBook;
  average_rating : Rating
}.

Definition label (r : Row) : string := title_without_series (book_dict (book r)).

End AuthorDf.

(** [pd.DataFrame([book._book_dict ...])] and
    [average_rating.astype(float)]. *)
Definition author_dataframe `{Pandas} (books : list GoodreadsBook)
  : result (list AuthorDf.Row) :=
  rbind (column books (fun b => bd_average_rating (book_dict b))) (fun avgs =>
  rbind (rmap astype_float avgs) (fun avgs =>
  Ok (map (fun ba => {| AuthorDf.book := fst ba;
                        AuthorDf.average_rating := snd ba |})
          (combine books avgs)))).

(** ** The chart functions *)

Definition series_point (r : SeriesDf.Row) : string * Rating :=
  (SeriesDf.title r, SeriesDf.average_rating r).

Definition author_point (r : AuthorDf.Row) : string * Rating :=
  (AuthorDf.label r, AuthorDf.average_rating r).

Definition avg_rating_in_series_order (series_df : list SeriesDf.Row)
  (cut_off : Z) : Chart :=
  py_slice (map series_point series_df) cut_off.

Definition graph_avg_rating_by_series_order `{Pandas}
  (series_df : list SeriesDf.Row) (cut_off : Z) : M unit :=
  plot_scatter (avg_rating_in_series_order series_df cut_off).

Definition series_by_average_rating `{Pandas} (series_df : list SeriesDf.Row)
  (cut_off : Z) : Chart :=
  map series_point
      (sort_values_desc SeriesDf.average_rating (py_slice series_df cut_off)).

Definition graph_series_sort_by_average_rating `{Pandas}
  (series_df : list SeriesDf.Row) (cut_off : Z) : M unit :=
  plot_scatter (series_by_average_rating series_df cut_off).

Definition author_by_average_rating `{Pandas} (author_books_df : list AuthorDf.Row)
  (cut_off : Z) : Chart :=
  map author_point
      (sort_values_desc AuthorDf.average_rating
                        (py_slice author_books_df cut_off)).

Definition graph_author_sort_by_average_rating `{Pandas}
  (author_books_df : list AuthorDf.Row) (cut_off : Z) : M unit :=
  plot_scatter (author_by_average_rating author_books_df cut_off).

Definition avg_rating_by_popularity (author_books_df : list AuthorDf.Row)
  (cut_off : Z) : Chart :=
  py_slice (map author_point author_books_df) cut_off.

Definition graph_avg_rating_by_popularity `{Pandas}
  (author_books_df : list AuthorDf.Row) (cut_off : Z) : M unit :=
  plot_scatter (avg_rating_by_popularity author_books_df cut_off).

(** ** The cut-off prompt *)

(** [int(line or 0)] for the line [input] returned. *)
Definition new_cut_off (line : string) : result Z :=
  if String.eqb line "" then Ok 0 else py_int line.

Definition set_stdin (w : World) (lines : list string) : World :=
  {| requests := requests w; stdin := lines; charts := charts w |}.

(** The [while True] block that ends [graph_series] and [graph_author] when
    [prompt_new_cutoff] is set: draw, read a line, stop on an empty line or on
    0, otherwise go round with the new cut-off.  [lines] are the console lines
    still unread; drawing reads none of them, so the loop walks down that list. *)
Fixpoint prompt_loop (graph : Z -> M unit) (cut_off : Z) (lines : list string)
  : M unit :=
  fun w =>
    match graph cut_off w with
    | (Raise e, w') => (Raise e, w')
    | (Ok _, w') =>
        match lines with
        | [] => (Raise EOFError, set_stdin w' [])
        | line :: rest =>
            match new_cut_off line with
            | Raise e => (Raise e, set_stdin w' rest)
            | Ok NEW_CUT_OFF =>
                if (NEW_CUT_OFF =? 0)%Z
                then (Ok tt, set_stdin w' rest)
                else prompt_loop graph NEW_CUT_OFF rest (set_stdin w' rest)
            end
        end
    end.

Definition cutoff_loop (graph : Z -> M unit) (prompt_new_cutoff : bool)
  (cut_off : Z) : M unit :=
  fun w =>
    if prompt_new_cutoff
    then prompt_loop graph cut_off (stdin w) w
    else graph cut_off w.

(** ** Retrieval and the two pipelines *)

Definition series_request (series_id page : Z) : Request :=
  {| endpoint := "series/show"; req_id := series_id; req_page := Some page |}.

Definition series_page (gc : GoodreadsClient) (series_id page : Z)
  : M (string * list SeriesWork) :=
  resp <- request gc (series_request series_id page) ;;
  lift (series_works resp).

Definition series_works_of_page (gc : GoodreadsClient) (series_id p : Z)
  : M (list SeriesWork) :=
  page <- series_page gc series_id p ;; ret (snd page).

(** Lines 139 to 155 of [graph_series]: page 1, the page count, and the pages
    [range(2, pages)] appended when [pages > 1]. *)
Definition series_all_pages (gc : GoodreadsClient) (series_id : Z)
  : M (list SeriesWork) :=
  first <- series_page gc series_id 1 ;;
  total <- lift (py_int (fst first)) ;;
  let pages := py_ceil_div total DEFAULT_SERIES_BOOKS_PER_PAGE + 1 in
  if (1 <? pages)%Z
  then more <- mapM (series_works_of_page gc series_id) (py_range 2 pages) ;;
       ret (snd first ++ List.concat more)
  else ret (snd first).

Definition graph_series `{Pandas} (gc : GoodreadsClient) (url : string)
  (cut_off : Z) (prompt_new_cutoff sort_by_rating : bool) : M unit :=
  series_id <- lift (series_url_to_series_id url) ;;
  series_work <- series_all_pages gc series_id ;;
  series_df <- lift (series_dataframe (series_books series_work)) ;;
  cutoff_loop
    (fun cut_off =>
       if sort_by_rating
       then graph_series_sort_by_average_rating series_df cut_off
       else graph_avg_rating_by_series_order series_df cut_off)
    prompt_new_cutoff cut_off.

Definition author_count_request (author_id : Z) : Request :=
  {| endpoint := "author/list"; req_id := author_id; req_page := None |}.

Definition author_page_request (author_id page : Z) : Request :=
  {| endpoint := "author/list"; req_id := author_id; req_page := Some page |}.

Definition author_books_total_pages (gc : GoodreadsClient) (author_id : Z)
  : M Z :=
  resp <- request gc (author_count_request author_id) ;;
  books <- lift (author_books resp) ;;
  total <- lift (py_int (fst books)) ;;
  ret (py_ceil_div total DEFAULT_AUTHOR_BOOKS_PER_PAGE + 1).

(** [GoodreadsBook({**book, "id": int(book["id"]["#text"])}, gc)] *)
Definition goodreads_book (b : BookDict) : result GoodreadsBook :=
  rbind (py_int (id_text b)) (fun i => Ok {| id := i; book_dict := b |}).

Definition author_books_for_page (gc : GoodreadsClient) (author_id page : Z)
  : M (list GoodreadsBook) :=
  resp <- request gc (author_page_request author_id page) ;;
  books <- lift (author_books resp) ;;
  lift (rmap goodreads_book (snd books)).

Definition author_books_all_pages (gc : GoodreadsClient) (author_id : Z)
  : M (list GoodreadsBook) :=
  pages <- author_books_total_pages gc author_id ;;
  per_page <- mapM (author_books_for_page gc author_id) (py_range 1 pages) ;;
  ret (List.concat per_page).

(** The condition of the comprehension that builds [filtered_author_books]. *)
Definition author_filter (author_id min_num_ratings : Z) (book : GoodreadsBook)
  : bool :=
  (existsb (Z.eqb author_id) (authors book)
   && (ratings_count book >? min_num_ratings)%Z)%bool.

Definition graph_author `{Pandas} (gc : GoodreadsClient) (url : string)
  (cut_off : Z) (prompt_new_cutoff sort_by_rating : bool)
  (min_num_ratings : Z) : M unit :=
  author_id <- lift (author_url_to_author_id url) ;;
  author_books <- author_books_all_pages gc author_id ;;
  let filtered_author_books :=
    filter (author_filter author_id min_num_ratings) author_books in
  author_books_df <- lift (author_dataframe filtered_author_books) ;;
  cutoff_loop
    (fun cut_off =>
       if sort_by_rating
       then graph_author_sort_by_average_rating author_books_df cut_off
       else graph_avg_rating_by_popularity author_books_df cut_off)
    prompt_new_cutoff cut_off.

(** ** The driver *)

(** The namespace [parse_args] returns; the two keys only serve to build the
    client, which [main] takes ready made here. *)
Record Args : Type := {
  cut_off : Z;
  prompt_more_urls : bool;
  prompt_new_cutoff : bool;
  sort_by_rating : bool;
  min_num_ratings : Z;
  author : bool;
  series : bool;
  urls : list string
}.

(** [raw_urls.split(" ")] *)
Fixpoint split_chars (s cur : list ascii) : list string :=
  match s with
  | [] => [string_of_list_ascii (rev cur)]
  | c :: s' =>
      if Ascii.eqb c " "%char
      then string_of_list_ascii (rev cur) :: split_chars s' []
      else split_chars s' (c :: cur)
  end.

Definition split_spaces (s : string) : list string :=
  split_chars (PyStr.chars s) [].

(** The [while True] block under [prompt_more_urls].  Every round reads a line,
    so a fuel of one more than the number of unread lines is never used up. *)
Fixpoint more_urls_loop (fuel : nat) (graph : string -> M unit) : M unit :=
  match fuel with
  | O => lift (Raise EOFError)
  | S fuel' =>
      raw_urls <- input ;;
      if String.eqb raw_urls ""
      then ret tt
      else for_each (split_spaces raw_urls) graph ;;; more_urls_loop fuel' graph
  end.

Definition prompt_more (enabled : bool) (graph : string -> M unit) : M unit :=
  fun w =>
    if enabled
    then more_urls_loop (S (List.length (stdin w))) graph w
    else (Ok tt, w).

(** The call of [graph_series] and of [graph_author] that [main] makes for one
    URL. *)
Definition graph_series_url `{Pandas} (args : Args) (gc : GoodreadsClient)
  (url : string) : M unit :=
  graph_series gc url (cut_off args) (prompt_new_cutoff args)
               (sort_by_rating args).

Definition graph_author_url `{Pandas} (args : Args) (gc : GoodreadsClient)
  (url : string) : M unit :=
  graph_author gc url (cut_off args) (prompt_new_cutoff args)
               (sort_by_rating args) (min_num_ratings args).

(** The body of the [for url in args.urls] loop of the series branch: the
    prompt for more URLs sits inside the loop there. *)
Definition series_turn `{Pandas} (args : Args) (gc : GoodreadsClient)
  (url : string) : M unit :=
  graph_series_url args gc url ;;;
  prompt_more (prompt_more_urls args) (graph_series_url args gc).

Definition main `{Pandas} (args : Args) (gc : GoodreadsClient) : M unit :=
  (if series args
   then for_each (urls args) (series_turn args gc)
   else ret tt) ;;;
  (if author args
   then for_each (urls args) (graph_author_url args gc) ;;;
        prompt_more (prompt_more_urls args) (graph_author_url args gc)
   else ret tt).

(** ** Instances used to run the pipeline on concrete data *)

(** Insertion of position [i] into the positions [sorted], ascending by item.
    With [after_equal] the position goes behind the items equal to its own
    (the sort is stable), without it in front of them. *)
Fixpoint insert_index (after_equal : bool) (items : list Rating) (i : nat)
  (sorted : list nat) : list nat :=
  match sorted with
  | [] => [i]
  | j :: rest =>
      let xi := nth i items NaN in
      let xj := nth j items NaN in
      if (if after_equal then negb (rating_leb xj xi) else rating_leb xi xj)
      then i :: sorted
      else j :: insert_index after_equal items i rest
  end.

Definition insertion_argsort (after_equal : bool) (items : list Rating)
  : list nat :=
  fold_left (fun acc i => insert_index after_equal items i acc)
            (seq 0 (List.length items)) [].

(** [float(s)] on an integer literal; other spellings are rejected. *)
Definition float_of_int_literal (s : string) : result Rating :=
  rbind (py_int s) (fun n => Ok (Fin (inject_Z n))).

(** A pandas whose sort keeps ties in input order and whose charts always
    draw. *)
Definition stable_pandas : Pandas :=
  {| argsort := insertion_argsort true;
     astype_float := float_of_int_literal;
     plot_show := fun _ => Ok tt |}.

(** A pandas whose sort puts a later tie in front of an earlier one. *)
Definition tie_reversing_pandas : Pandas :=
  {| argsort := insertion_argsort false;
     astype_float := float_of_int_literal;
     plot_show := fun _ => Ok tt |}.

Definition empty_world : World :=
  {| requests := []; stdin := []; charts := [] |}.

Definition series_work_of (title sum count : string) : SeriesWork :=
  {| work := {| w_ratings_sum := sum; w_ratings_count := count;
                w_average_rating := Some "0.0";
                best_book := {| bb_title := title |} |};
     user_position := "1" |}.

(** The same entry without an [average_rating] key. *)
Definition series_work_without_average (title sum count : string)
  : SeriesWork :=
  {| work := {| w_ratings_sum := sum; w_ratings_count := count;
                w_average_rating := None;
                best_book := {| bb_title := title |} |};
     user_position := "1" |}.

(** A series listing that answers page 1 with [works] and every other page
    with no entries. *)
Definition series_client (works_count : string) (works : list SeriesWork)
  : GoodreadsClient :=
  {| respond := fun _ r =>
       match req_page r with
       | Some 1 => Ok (SeriesShow works_count works)
       | _ => Ok (SeriesShow works_count [])
       end |}.

(** The three rated books A 3.5, B 4.0, C 4.0 as rating sums over counts. *)
Definition works_ABC : list SeriesWork :=
  [series_work_of "A" "7" "2"; series_work_of "B" "4" "1";
   series_work_of "C" "8" "2"].

(** Three works of which the second has no ratings. *)
Definition works_with_unrated : list SeriesWork :=
  [series_work_of "A" "7" "2"; series_work_of "B" "0" "0";
   series_work_of "C" "8" "2"].

Definition rows_ABC : list SeriesDf.Row :=
  [ {| SeriesDf.title := "A"; SeriesDf.ratings_sum := 7;
       SeriesDf.ratings_count := 2; SeriesDf.average_rating := Fin (7 # 2);
       SeriesDf.user_position := "1" |};
    {| SeriesDf.title := "B"; SeriesDf.ratings_sum := 4;
       SeriesDf.ratings_count := 1; SeriesDf.average_rating := Fin (4 # 1);
       SeriesDf.user_position := "2" |};
    {| SeriesDf.title := "C"; SeriesDf.ratings_sum := 8;
       SeriesDf.ratings_count := 2; SeriesDf.average_rating := Fin (8 # 2);
       SeriesDf.user_position := "3" |} ].

Definition book_dict_of (id_text title : string) (count : Z) (gids : list Z)
  : BookDict :=
  {| id_text := id_text; title_without_series := title;
     bd_average_rating := "4"; bd_ratings_count := count;
     bd_authors := gids |}.

(** An author listing whose answer to the first request made differs from its
    answer to the later ones: the count request sees [first_books], the page
    requests see [later_books]. *)
Definition author_client (total : string) (first_books later_books : list BookDict)
  : GoodreadsClient :=
  {| respond := fun history r =>
       match history with
       | [] => Ok (AuthorList total first_books)
       | _ :: _ => Ok (AuthorList total later_books)
       end |}.

(** The namespace of a run with the default options in series mode
    ([is_author] unset) or in author mode. *)
Definition default_args (is_author : bool) (us : list string) : Args :=
  {| cut_off := -1; prompt_more_urls := false; prompt_new_cutoff := false;
     sort_by_rating := false; min_num_ratings := 1;
     author := is_author; series := negb is_author; urls := us |}.

(** ** Predicates used to state the properties *)

Definition all_digits (ds : list ascii) : Prop :=
  Forall (fun c => PyStr.is_digit c = true) ds.

(** The series pattern occurs in [raw]: a run of digits and then a hyphen. *)
Definition has_series_pattern (raw : list ascii) : Prop :=
  exists pre ds post,
    ds <> [] /\ all_digits ds /\ raw = pre ++ ds ++ "-"%char :: post.

(** The author pattern occurs in [raw]: [show/], a run of digits and a dot. *)
Definition has_author_pattern (raw : list ascii) : Prop :=
  exists pre ds post,
    ds <> [] /\ all_digits ds /\
    raw = pre ++ PyStr.chars "show/" ++ ds ++ "."%char :: post.

(** What [argsort] is known to return whatever the sorting routine: the
    positions of the items, each once, with the items ascending along them. *)
Definition argsort_ok (P : Pandas) : Prop :=
  forall items : list Rating,
    Permutation (argsort items) (seq 0 (List.length items))
    /\ StronglySorted (fun x y => rating_leb x y = true)
                      (map (fun i => nth i items NaN) (argsort items)).

(** Descending, with the NaN values after all the others. *)
Definition desc_nan_last (x y : Rating) : Prop :=
  isnan y = true \/ (isnan x = false /\ rating_leb y x = true).

(** What a row of the frame is for a record of the listing. *)
Definition row_of_book (b : SeriesDf.Book) (row : SeriesDf.Row) : Prop :=
  SeriesDf.title row = SeriesDf.b_title b
  /\ to_int64 (SeriesDf.b_ratings_sum b) = Ok (SeriesDf.ratings_sum row)
  /\ to_int64 (SeriesDf.b_ratings_count b) = Ok (SeriesDf.ratings_count row)
  /\ SeriesDf.average_rating row =
       true_divide (SeriesDf.ratings_sum row) (SeriesDf.ratings_count row).

(** The chart points of [rows_ABC]. *)
Definition point_A : string * Rating := ("A", Fin (7 # 2)).
Definition point_B : string * Rating := ("B", Fin (4 # 1)).
Definition point_C : string * Rating := ("C", Fin (8 # 2)).

(** The number a run of decimal digits writes. *)
Definition decimal_value (ds : list ascii) : Z :=
  fold_left (fun acc c => 10 * acc + PyStr.digit_value c) ds 0.

(** A URL given by its characters. *)
Definition url_of (cs : list ascii) : string := string_of_list_ascii cs.

Definition series_prefix : list ascii :=
  PyStr.chars "https://www.goodreads.com/series/".
Definition author_prefix : list ascii :=
  PyStr.chars "https://www.goodreads.com/author/".

(** A computation that draws nothing. *)
Definition draws_nothing {A : Type} (m : M A) : Prop :=
  forall w, charts (snd (m w)) = charts w.

(** A client whose answer depends on the request alone. *)
Definition answers_by_request (gc : GoodreadsClient)
  (answer : Request -> result Response) : Prop :=
  forall history r, respond gc history r = answer r.

(** The chart [graph_series] and [graph_author] draw for a cut-off, by sort
    mode. *)
Definition series_chart `{Pandas} (sort_by_rating : bool)
  (series_df : list SeriesDf.Row) (cut_off : Z) : Chart :=
  if sort_by_rating
  then series_by_average_rating series_df cut_off
  else avg_rating_in_series_order series_df cut_off.

Definition author_chart `{Pandas} (sort_by_rating : bool)
  (author_books_df : list AuthorDf.Row) (cut_off : Z) : Chart :=
  if sort_by_rating
  then author_by_average_rating author_books_df cut_off
  else avg_rating_by_popularity author_books_df cut_off.

(** The entries an answer to a series request carries, and the books an answer
    to an author request decodes to; nothing when the answer is an error. *)
Definition series_work_of_answer (r : result Response) : list SeriesWork :=
  match r with
  | Ok (SeriesShow _ ws) => ws
  | _ => []
  end.

Definition books_of_answer (r : result Response) : list GoodreadsBook :=
  match r with
  | Ok (AuthorList _ bs) =>
      match rmap goodreads_book bs with
      | Ok gbs => gbs
      | Raise _ => []
      end
  | _ => []
  end.

(** The requests a computation adds to the log all satisfy [ok]. *)
Definition only_requests {A : Type} (ok : Request -> Prop) (m : M A) : Prop :=
  forall w, exists later,
    requests (snd (m w)) = requests w ++ later /\ Forall ok later.

(** The state [w] once the charts [cs] are drawn and the console is down to
    [lines]. *)
Definition with_charts (w : World) (lines : list string) (cs : list Chart)
  : World :=
  {| requests := requests w; stdin := lines; charts := charts w ++ cs |}.

(** * Properties *)

(** Closed strings are shown to be ASCII character by character. *)
Ltac ascii_string :=
  unfold is_ascii; cbn;
  repeat (apply Forall_cons; [cbn; lia |]); apply Forall_nil.

(** ** Worked examples *)

Example author_id_of_docstring_url :
  author_url_to_author_id ex_author_url = Ok 2565.
Proof. vm_compute. reflexivity. Qed.

Example series_id_of_docstring_url :
  series_url_to_series_id ex_series_url = Ok 49397.
Proof. vm_compute. reflexivity. Qed.

Example author_id_no_pattern :
  author_url_to_author_id "https://www.goodreads.com/author/list/2565" =
  Raise AttributeError.
Proof. vm_compute. reflexivity. Qed.

Example py_int_examples :
  py_int " 10 " = Ok 10 /\ py_int "-3" = Ok (-3) /\ py_int "1_000" = Ok 1000 /\
  py_int "abc" = Raise ValueError /\ py_int "" = Raise ValueError /\
  py_int "1__0" = Raise ValueError /\ py_int "0" = Ok 0.
Proof. vm_compute. repeat split; reflexivity. Qed.


(** ** Slices and the cut-off *)

Lemma slice_stop_nonneg (len : nat) (stop : Z) :
  0 <= stop -> slice_stop len stop = Nat.min (Z.to_nat stop) len.
Proof.
  intros Hstop. unfold slice_stop.
  destruct (Z.ltb_spec stop 0) as [Hneg | _]; [lia |].
  lia.
Qed.

Lemma slice_stop_negative (len : nat) (stop : Z) :
  stop < 0 -> slice_stop len stop = (len - Z.to_nat (- stop))%nat.
Proof.
  intros Hstop. unfold slice_stop.
  destruct (Z.ltb_spec stop 0) as [_ | Hpos]; lia.
Qed.

Lemma py_slice_nonneg {A : Type} (df : list A) (stop : Z) :
  0 <= stop -> py_slice df stop = firstn (Z.to_nat stop) df.
Proof.
  intros Hstop. unfold py_slice. rewrite slice_stop_nonneg by assumption.
  destruct (Nat.le_ge_cases (Z.to_nat stop) (List.length df)) as [Hle | Hge].
  - now rewrite Nat.min_l.
  - rewrite Nat.min_r by assumption.
    now rewrite !firstn_all2 by lia.
Qed.

Lemma py_slice_length {A : Type} (df : list A) (stop : Z) :
  0 <= stop ->
  List.length (py_slice df stop) = Nat.min (Z.to_nat stop) (List.length df).
Proof.
  intros Hstop. rewrite py_slice_nonneg by assumption. apply length_firstn.
Qed.

Lemma py_slice_map {A B : Type} (f : A -> B) (df : list A) (stop : Z) :
  py_slice (map f df) stop = map f (py_slice df stop).
Proof.
  unfold py_slice. rewrite length_map. apply firstn_map.
Qed.

Lemma py_slice_zero {A : Type} (df : list A) : py_slice df 0 = [].
Proof. now rewrite py_slice_nonneg by lia. Qed.

Lemma sort_values_desc_nil `{Pandas} {A : Type} (key : A -> Rating) :
  sort_values_desc key [] = [].
Proof.
  unfold sort_values_desc, take.
  induction (nargsort_desc (map key [])) as [| i ix IH]; [reflexivity |].
  simpl. now destruct i.
Qed.

(** C1, as amended.  For a cut-off that is not negative, each of the four
    chart functions keeps the first [cut_off] records of the frame in its input
    order (all of them when there are fewer), and the two rating-sorted charts
    sort what is left after that cut, so the cut comes before the sort.  With a
    cut-off of 0 the chart is empty and is still passed to the plotting call,
    whose outcome is the outcome of the chart function. *)
Theorem cutoff_keeps_first_input_records `{Pandas}
  (series_df : list SeriesDf.Row) (author_books_df : list AuthorDf.Row)
  (cut_off : Z) :
  0 <= cut_off ->
  let n := Z.to_nat cut_off in
  (avg_rating_in_series_order series_df cut_off =
     firstn n (map series_point series_df)
   /\ avg_rating_by_popularity author_books_df cut_off =
        firstn n (map author_point author_books_df)
   /\ series_by_average_rating series_df cut_off =
        map series_point
            (sort_values_desc SeriesDf.average_rating (firstn n series_df))
   /\ author_by_average_rating author_books_df cut_off =
        map author_point
            (sort_values_desc AuthorDf.average_rating
                              (firstn n author_books_df)))
  /\ (List.length (avg_rating_in_series_order series_df cut_off) =
        Nat.min n (List.length series_df)
      /\ List.length (avg_rating_by_popularity author_books_df cut_off) =
           Nat.min n (List.length author_books_df))
  /\ (forall w,
        graph_avg_rating_by_series_order series_df 0 w =
          (plot_show [], add_chart w [])
        /\ graph_series_sort_by_average_rating series_df 0 w =
             (plot_show [], add_chart w [])
        /\ graph_avg_rating_by_popularity author_books_df 0 w =
             (plot_show [], add_chart w [])
        /\ graph_author_sort_by_average_rating author_books_df 0 w =
             (plot_show [], add_chart w [])).
Proof.
  intros Hcut n. split; [| split].
  - unfold avg_rating_in_series_order, avg_rating_by_popularity,
      series_by_average_rating, author_by_average_rating.
    now rewrite !py_slice_nonneg by assumption.
  - unfold avg_rating_in_series_order, avg_rating_by_popularity.
    rewrite !py_slice_length by assumption. now rewrite !length_map.
  - intros w.
    unfold graph_avg_rating_by_series_order, graph_series_sort_by_average_rating,
      graph_avg_rating_by_popularity, graph_author_sort_by_average_rating,
      avg_rating_in_series_order, avg_rating_by_popularity,
      series_by_average_rating, author_by_average_rating, plot_scatter.
    rewrite !py_slice_zero, !sort_values_desc_nil. simpl.
    repeat split; reflexivity.
Qed.

Lemma cutoff_keeps_first_input_records_witness :
  0 <= 2 /\
  avg_rating_in_series_order rows_ABC 2 =
    firstn 2 (map series_point rows_ABC).
Proof.
  split; [lia |].
  exact (proj1 (proj1 (@cutoff_keeps_first_input_records stable_pandas
                         rows_ABC [] 2 ltac:(lia)))).
Defined.

(** C1 as stated fails twice.  A negative cut-off is not unlimited: [-1] drops
    the last record.  And the cut is taken before the sort: under the rating
    sort a cut-off of 1 keeps the first input record A, not the best rated B. *)
Lemma negative_cutoff_drops_and_cut_precedes_sort :
  avg_rating_in_series_order rows_ABC (-1) =
    [("A", Fin (7 # 2)); ("B", Fin (4 # 1))]
  /\ avg_rating_in_series_order rows_ABC (-1) <> map series_point rows_ABC
  /\ @series_by_average_rating stable_pandas rows_ABC 1 = [("A", Fin (7 # 2))]
  /\ firstn 1 (@series_by_average_rating stable_pandas rows_ABC 3) =
       [("B", Fin (4 # 1))].
Proof.
  repeat split; try reflexivity.
  intros Heq. apply (f_equal (@List.length _)) in Heq. discriminate Heq.
Qed.

(** ** The author filter *)



(** ** Identifier extraction *)

Lemma plus_with_digit_sound k :
  forall s acc g,
    PyStr.plus_with PyStr.Digit k acc s = Some g ->
    exists ds rest,
      ds <> [] /\ all_digits ds /\ s = ds ++ rest /\ k (acc ++ ds) rest = Some g.
Proof.
  induction s as [| c s IH]; intros acc g Hm; simpl in Hm; [discriminate |].
  destruct (PyStr.is_digit c) eqn:Hc; [| discriminate].
  destruct (PyStr.plus_with PyStr.Digit k (acc ++ [c]) s) as [r |] eqn:Hrec.
  - injection Hm as <-. apply IH in Hrec.
    destruct Hrec as (ds & rest & _ & Hds & -> & Hk).
    exists (c :: ds), rest. rewrite <- app_assoc in Hk.
    repeat split; [discriminate | now constructor | assumption].
  - exists [c], s. repeat split; [discriminate | | assumption].
    constructor; [assumption | constructor].
Qed.

Lemma star_with_sound a k :
  forall s g,
    PyStr.star_with a k s = Some g ->
    exists pre rest, s = pre ++ rest /\ k rest = Some g.
Proof.
  induction s as [| c s IH]; intros g Hm; simpl in Hm.
  - now exists [], [].
  - destruct (PyStr.atom_matches a c).
    + destruct (PyStr.star_with a k s) as [r |] eqn:Hrec.
      * injection Hm as <-.
        destruct (IH r eq_refl) as (pre & rest & -> & Hk).
        now exists (c :: pre), rest.
      * now exists [], (c :: s).
    + now exists [], (c :: s).
Qed.

Lemma match_one_lit c p g s r :
  PyStr.match_here (PyStr.One (PyStr.Lit c) :: p) g s = Some r ->
  exists s', s = c :: s' /\ PyStr.match_here p g s' = Some r.
Proof.
  simpl. destruct s as [| x s']; [discriminate |].
  destruct (Ascii.eqb_spec c x) as [-> | _]; [| discriminate].
  intros Hm. now exists s'.
Qed.

Lemma match_group_plus a p g s r :
  PyStr.match_here (PyStr.GroupPlus a :: p) g s = Some r ->
  PyStr.plus_with a (PyStr.match_here p) [] s = Some r.
Proof. intros Hm. exact Hm. Qed.

Lemma match_star a p g s r :
  PyStr.match_here (PyStr.Star a :: p) g s = Some r ->
  PyStr.star_with a (PyStr.match_here p g) s = Some r.
Proof. intros Hm. exact Hm. Qed.

Lemma re_search_sound p :
  forall s g,
    PyStr.re_search p s = Some g ->
    exists pre suf, s = pre ++ suf /\ PyStr.match_here p [] suf = Some g.
Proof.
  induction s as [| c s IH]; intros g Hs; simpl in Hs.
  - destruct (PyStr.match_here p [] []) eqn:Hm; [| discriminate].
    injection Hs as <-. now exists [], [].
  - destruct (PyStr.match_here p [] (c :: s)) eqn:Hm.
    + injection Hs as <-. now exists [], (c :: s).
    + apply IH in Hs. destruct Hs as (pre & suf & -> & Hsuf).
      now exists (c :: pre), suf.
Qed.

Lemma series_rgx_sound raw g :
  PyStr.re_search series_rgx raw = Some g -> has_series_pattern raw.
Proof.
  intros Hs. apply re_search_sound in Hs.
  destruct Hs as (pre & suf & -> & Hm).
  unfold series_rgx in Hm. apply match_group_plus in Hm.
  apply plus_with_digit_sound in Hm.
  destruct Hm as (ds & rest & Hne & Hds & -> & Hk).
  apply match_one_lit in Hk. destruct Hk as (post & -> & _).
  now exists pre, ds, post.
Qed.

Lemma author_rgx_sound raw g :
  PyStr.re_search author_rgx raw = Some g -> has_author_pattern raw.
Proof.
  intros Hs. apply re_search_sound in Hs.
  destruct Hs as (pre & suf & -> & Hm).
  unfold author_rgx in Hm. apply match_star in Hm.
  apply star_with_sound in Hm. destruct Hm as (dots & rest & -> & Hm).
  do 5 (apply match_one_lit in Hm; destruct Hm as (? & -> & Hm)).
  apply match_group_plus in Hm.
  apply plus_with_digit_sound in Hm.
  destruct Hm as (ds & rest & Hne & Hds & -> & Hk).
  apply match_one_lit in Hk. destruct Hk as (post & -> & _).
  exists (pre ++ dots), ds, post. repeat split; try assumption.
  rewrite <- app_assoc. reflexivity.
Qed.


Lemma no_hyphen_no_series_pattern (raw : list ascii) :
  ~ In "-"%char raw -> ~ has_series_pattern raw.
Proof.
  intros Hno (pre & ds & post & _ & _ & ->). apply Hno.
  rewrite !in_app_iff. right. right. now left.
Qed.



(** ** The cut-off prompt *)

Lemma py_int_raises_value_error (s : string) :
  py_int s = Raise ValueError \/ exists n, py_int s = Ok n.
Proof.
  unfold py_int. destruct (PyStr.int_chars (PyStr.chars s)) as [n |].
  - right. now exists n.
  - now left.
Qed.

(** C7, as amended.  At the cut-off prompt, after a chart has been drawn, an
    empty line or a line that reads as the integer 0 ends the loop normally;
    a line that reads as another integer starts the next round with that
    cut-off; and an ASCII line that is not an integer literal makes [int] raise
    [ValueError], which leaves the loop as an error.  (Outside ASCII [int]
    also reads other decimal digits and strips other white space; such lines
    are not covered by the last part.) *)
Theorem cutoff_prompt_outcomes (graph : Z -> M unit) (c : Z)
  (line : string) (rest : list string) (w w' : World) :
  stdin w = line :: rest ->
  graph c w = (Ok tt, w') ->
  (line = "" \/ py_int line = Ok 0 ->
   cutoff_loop graph true c w = (Ok tt, set_stdin w' rest))
  /\ (forall n, line <> "" -> py_int line = Ok n -> n <> 0 ->
      cutoff_loop graph true c w =
        prompt_loop graph n rest (set_stdin w' rest))
  /\ (line <> "" -> is_ascii line -> (forall n, py_int line <> Ok n) ->
      cutoff_loop graph true c w = (Raise ValueError, set_stdin w' rest)).
Proof.
  intros Hin Hgraph. unfold cutoff_loop. rewrite Hin. simpl. rewrite Hgraph.
  unfold new_cut_off. split; [| split].
  - intros [-> | Hzero]; [reflexivity |].
    destruct (String.eqb line ""); [reflexivity |]. now rewrite Hzero.
  - intros n Hne Hn Hnz.
    destruct (String.eqb_spec line "") as [-> | _]; [congruence |].
    rewrite Hn. destruct (Z.eqb_spec n 0); [contradiction | reflexivity].
  - intros Hne _ Hnot.
    destruct (String.eqb_spec line "") as [-> | _]; [congruence |].
    destruct (py_int_raises_value_error line) as [-> | [n Hn]];
      [reflexivity | now apply Hnot in Hn].
Qed.

Lemma cutoff_prompt_outcomes_witness :
  let w := set_stdin empty_world ["abc"] in
  let graph := @graph_avg_rating_by_series_order stable_pandas rows_ABC in
  stdin w = ["abc"]
  /\ graph 3 w = (Ok tt, add_chart w (map series_point rows_ABC))
  /\ cutoff_loop graph true 3 w =
       (Raise ValueError,
        set_stdin (add_chart w (map series_point rows_ABC)) []).
Proof.
  intros w graph.
  assert (Hin : stdin w = ["abc"]) by reflexivity.
  assert (Hg : graph 3 w = (Ok tt, add_chart w (map series_point rows_ABC)))
    by reflexivity.
  split; [exact Hin | split; [exact Hg |]].
  apply (proj2 (proj2 (cutoff_prompt_outcomes graph 3 "abc" [] w _ Hin Hg))).
  - discriminate.
  - ascii_string.
  - intros n Hn. vm_compute in Hn. discriminate Hn.
Defined.

(** C7 as stated fails: with the prompt enabled and the line [abc] on the
    console, [graph_series] and [graph_author] draw once and then end with a
    [ValueError] instead of returning. *)
Lemma non_integer_cutoff_line_raises :
  fst (@graph_series stable_pandas (series_client "3" works_ABC) ex_series_url
         3 true false (set_stdin empty_world ["abc"])) = Raise ValueError
  /\ fst (@graph_author stable_pandas
            (author_client "1" [] [book_dict_of "7" "X" 5 [2565]])
            ex_author_url 3 true false 1 (set_stdin empty_world ["abc"])) =
       Raise ValueError.
Proof. split; vm_compute; reflexivity. Qed.

(** ** The driver *)

Lemma for_each_stops_at_raise {A : Type} (body : A -> M unit) :
  forall (done : list A) (x : A) (rest : list A) (e : exn) (w w1 w2 : World),
    for_each done body w = (Ok tt, w1) ->
    body x w1 = (Raise e, w2) ->
    for_each (done ++ x :: rest) body w = (Raise e, w2).
Proof.
  induction done as [| d done IH]; intros x rest e w w1 w2 Hdone Hx; simpl in *.
  - injection Hdone as <-. unfold bind. now rewrite Hx.
  - unfold bind in *. destruct (body d w) as [[[] | e'] wd]; [| discriminate].
    now apply IH with w1.
Qed.

(** C8, as amended.  [main] has no handler: when the call for one URL of the
    batch raises, after the URLs before it went through, [main] ends with that
    same exception in the state that call left, so no later URL is requested
    or drawn. *)
Theorem failing_url_aborts_batch `{Pandas} (args : Args) (gc : GoodreadsClient)
  (done : list string) (url : string) (rest : list string) (e : exn)
  (w w1 w2 : World) :
  urls args = done ++ url :: rest ->
  (series args = true ->
   for_each done (series_turn args gc) w = (Ok tt, w1) ->
   graph_series_url args gc url w1 = (Raise e, w2) ->
   main args gc w = (Raise e, w2))
  /\ (series args = false -> author args = true ->
      for_each done (graph_author_url args gc) w = (Ok tt, w1) ->
      graph_author_url args gc url w1 = (Raise e, w2) ->
      main args gc w = (Raise e, w2)).
Proof.
  intros Hurls. split.
  - intros Hs Hdone Hurl. unfold main. rewrite Hs, Hurls. unfold bind at 1.
    rewrite (for_each_stops_at_raise _ done url rest e w w1 w2 Hdone);
      [reflexivity |].
    unfold series_turn, bind. now rewrite Hurl.
  - intros Hs Ha Hdone Hurl. unfold main. rewrite Hs, Ha, Hurls.
    unfold bind, ret.
    now rewrite (for_each_stops_at_raise _ done url rest e w w1 w2 Hdone Hurl).
Qed.

Lemma failing_url_aborts_batch_witness :
  let args := default_args false ["bad"; ex_series_url] in
  let gc := series_client "3" works_ABC in
  @main stable_pandas args gc empty_world = (Raise AttributeError, empty_world).
Proof.
  intros args gc.
  apply (proj1 (@failing_url_aborts_batch stable_pandas args gc [] "bad"
                  [ex_series_url] AttributeError empty_world empty_world
                  empty_world eq_refl));
    reflexivity.
Defined.

(** C8 as stated fails: in a batch of a malformed URL followed by a good one,
    [main] ends with the error of the first and the second is never requested
    nor drawn, in series mode and in author mode alike. *)
Lemma batch_is_aborted_by_first_error :
  @main stable_pandas (default_args false ["bad"; ex_series_url])
        (series_client "3" works_ABC) empty_world =
    (Raise AttributeError, empty_world)
  /\ @main stable_pandas (default_args true ["bad"; ex_author_url])
           (author_client "1" [] [book_dict_of "7" "X" 5 [2565]]) empty_world =
       (Raise AttributeError, empty_world)
  /\ fst (@main stable_pandas (default_args false [ex_series_url])
                (series_client "3" works_ABC) empty_world) = Ok tt.
Proof. repeat split; vm_compute; reflexivity. Qed.

(** ** Retrieval *)

Lemma add_requests_nil (w : World) : add_requests w [] = w.
Proof. destruct w. unfold add_requests. simpl. now rewrite app_nil_r. Qed.

Lemma add_requests_app (w : World) (a b : list Request) :
  add_requests (add_requests w a) b = add_requests w (a ++ b).
Proof. unfold add_requests. simpl. now rewrite app_assoc. Qed.

Lemma ceil_div_is_ceiling (total per_page : Z) :
  0 < per_page ->
  per_page * (ceil_div total per_page - 1) < total <=
  per_page * ceil_div total per_page.
Proof.
  intros Hpos. unfold ceil_div.
  pose proof (Z.div_mod (- total) per_page ltac:(lia)) as Hdm.
  pose proof (Z.mod_pos_bound (- total) per_page Hpos) as Hmod.
  nia.
Qed.

Lemma ceil_div_positive (total per_page : Z) :
  0 < per_page -> 0 < total -> 1 <= ceil_div total per_page.
Proof.
  intros Hpos Htotal.
  pose proof (ceil_div_is_ceiling total per_page Hpos) as Hc. nia.
Qed.

(** ** The double quotient *)

Lemma round_half_even_ge_floor (num den : Z) :
  num / den <= Float64.round_half_even num den.
Proof.
  unfold Float64.round_half_even.
  destruct (2 * (num mod den) ?= den)%Z; [destruct (Z.even _) | |]; lia.
Qed.

Lemma round_half_even_le (num den N : Z) :
  0 < den -> num <= N * den -> Float64.round_half_even num den <= N.
Proof.
  intros Hden Hle. unfold Float64.round_half_even.
  pose proof (Z.div_mod num den ltac:(lia)) as Hdm.
  pose proof (Z.mod_pos_bound num den Hden) as Hmod.
  assert (Hq : num / den <= N) by (apply Z.div_le_upper_bound; lia).
  destruct (Z.compare_spec (2 * (num mod den)) den) as [Heq | Hlt | Hgt].
  - destruct (Z.even (num / den)); [lia |]. nia.
  - lia.
  - nia.
Qed.

Lemma exponent_le (a b : Z) :
  Float64.exponent a b <= Z.log2 a - Z.log2 b - 52.
Proof.
  unfold Float64.exponent. destruct (_ <? _)%Z; lia.
Qed.

Lemma exponent_scaled (a b : Z) :
  0 < a -> 0 < b ->
  2 ^ 52 * Float64.scaled_den b (Float64.exponent a b) <=
  Float64.scaled_num a (Float64.exponent a b).
Proof.
  intros Ha Hb. unfold Float64.exponent.
  set (e0 := Z.log2 a - Z.log2 b - 52).
  destruct (Z.ltb_spec (Float64.scaled_num a e0)
                       (2 ^ 52 * Float64.scaled_den b e0)) as [Hlt | Hge];
    [| exact Hge].
  pose proof (Z.log2_spec a Ha) as [Hla _].
  pose proof (Z.log2_spec b Hb) as [_ Hlb].
  pose proof (Z.log2_nonneg a) as Hna.
  pose proof (Z.log2_nonneg b) as Hnb.
  unfold Float64.scaled_num, Float64.scaled_den.
  destruct (Z.le_gt_cases e0 0) as [Hneg | Hpos].
  - rewrite (Z.max_r 0 (- (e0 - 1))) by lia.
    rewrite (Z.max_l 0 (e0 - 1)) by lia.
    replace (- (e0 - 1)) with (Z.succ (52 + Z.log2 b - Z.log2 a))
      by (unfold e0; lia).
    rewrite Z.pow_succ_r by (unfold e0 in Hneg; lia).
    assert (Hpow : 2 ^ Z.log2 a * 2 ^ (52 + Z.log2 b - Z.log2 a) =
                   2 ^ 52 * 2 ^ Z.log2 b).
    { rewrite <- !Z.pow_add_r by (unfold e0 in Hneg; lia). f_equal. lia. }
    rewrite Z.pow_succ_r in Hlb by lia.
    assert (H0 : 0 < 2 ^ (52 + Z.log2 b - Z.log2 a))
      by (apply Z.pow_pos_nonneg; unfold e0 in Hneg; lia).
    nia.
  - rewrite (Z.max_l 0 (- (e0 - 1))) by lia.
    rewrite (Z.max_r 0 (e0 - 1)) by lia.
    assert (Hpow : 2 ^ 52 * 2 ^ Z.succ (Z.log2 b) * 2 ^ (e0 - 1) =
                   2 ^ Z.log2 a).
    { rewrite <- !Z.pow_add_r by lia. f_equal. unfold e0. lia. }
    assert (H0 : 0 < 2 ^ (e0 - 1)) by (apply Z.pow_pos_nonneg; lia).
    change (2 ^ 0) with 1. nia.
Qed.

Lemma mantissa_lower (a b : Z) :
  0 < a -> 0 < b -> 2 ^ 52 <= Float64.mantissa a b.
Proof.
  intros Ha Hb. unfold Float64.mantissa.
  etransitivity; [| apply round_half_even_ge_floor].
  apply Z.div_le_lower_bound.
  - unfold Float64.scaled_den. apply Z.mul_pos_pos; [exact Hb |].
    apply Z.pow_pos_nonneg; lia.
  - rewrite Z.mul_comm. now apply exponent_scaled.
Qed.

Lemma py_ceil_div_positive (total per_page : Z) :
  0 < per_page -> 0 < total -> 1 <= py_ceil_div total per_page.
Proof.
  intros HP HT. unfold py_ceil_div.
  destruct total as [| t | t]; try lia.
  pose proof (mantissa_lower (Z.pos t) per_page HT HP) as Hm.
  unfold Float64.ceil_dyadic.
  destruct (Z.leb_spec 0 (Float64.exponent (Z.pos t) per_page)) as [He | He].
  - assert (0 < 2 ^ Float64.exponent (Z.pos t) per_page)
      by (apply Z.pow_pos_nonneg; lia).
    assert (0 < 2 ^ 52) by reflexivity. nia.
  - assert (HK : 0 < 2 ^ (- Float64.exponent (Z.pos t) per_page))
      by (apply Z.pow_pos_nonneg; lia).
    assert (- Float64.mantissa (Z.pos t) per_page /
              2 ^ (- Float64.exponent (Z.pos t) per_page) < 0).
    { apply Z.div_lt_upper_bound; [exact HK |].
      assert (0 < 2 ^ 52) by reflexivity. lia. }
    lia.
Qed.

Lemma ceil_div_unique (m K c : Z) :
  0 < K -> K * (c - 1) < m <= K * c -> ceil_div m K = c.
Proof.
  intros HK [Hlo Hhi]. unfold ceil_div.
  assert (- m / K = - c); [| lia].
  symmetry. apply Z.div_unique with (r := K * c - m); lia.
Qed.

Lemma py_ceil_div_exact (total per_page : Z) :
  0 < per_page -> 0 < total < 2 ^ 45 ->
  py_ceil_div total per_page = ceil_div total per_page.
Proof.
  intros HP [HT Hbound]. unfold py_ceil_div.
  destruct total as [| t | t]; try lia.
  set (T := Z.pos t) in *.
  pose proof (exponent_le T per_page) as He.
  assert (HlT : Z.log2 T < 45) by now apply Z.log2_lt_pow2.
  pose proof (Z.log2_nonneg per_page) as HnP.
  pose proof (Z.log2_spec per_page HP) as [_ HlP].
  set (e := Float64.exponent T per_page) in *.
  assert (Hneg : e < 0) by lia.
  unfold Float64.ceil_dyadic, Float64.mantissa. fold e.
  destruct (Z.leb_spec 0 e) as [Hle | _]; [lia |].
  unfold Float64.scaled_num, Float64.scaled_den.
  rewrite (Z.max_r 0 (- e)), (Z.max_l 0 e) by lia.
  change (2 ^ 0) with 1. rewrite Z.mul_1_r.
  set (K := 2 ^ (- e)).
  assert (HKP : per_page < K).
  { apply Z.lt_le_trans with (2 ^ Z.succ (Z.log2 per_page)); [exact HlP |].
    unfold K. apply Z.pow_le_mono_r; lia. }
  assert (HK : 0 < K) by lia.
  pose proof (ceil_div_is_ceiling T per_page HP) as [Hlo Hhi].
  set (c := ceil_div T per_page) in *.
  change (- (- Float64.round_half_even (T * K) per_page / K))
    with (ceil_div (Float64.round_half_even (T * K) per_page) K).
  apply ceil_div_unique; [exact HK |]. split.
  - apply Z.lt_le_trans with ((T * K) / per_page);
      [| apply round_half_even_ge_floor].
    apply Z.lt_le_trans with (K * (c - 1) + 1); [lia |].
    apply Z.div_le_lower_bound; [exact HP |]. nia.
  - apply round_half_even_le; [exact HP |]. nia.
Qed.

Lemma series_page_ok (gc : GoodreadsClient) (series_id page : Z) (w : World)
  (count : string) (works : list SeriesWork) :
  respond gc (requests w) (series_request series_id page) =
    Ok (SeriesShow count works) ->
  series_page gc series_id page w =
    (Ok (count, works), add_requests w [series_request series_id page]).
Proof.
  intros Hresp. unfold series_page, bind, request, lift. now rewrite Hresp.
Qed.

Lemma author_books_total_pages_ok (gc : GoodreadsClient) (author_id : Z)
  (w : World) (total : string) (first_books : list BookDict) (T : Z) :
  respond gc (requests w) (author_count_request author_id) =
    Ok (AuthorList total first_books) ->
  py_int total = Ok T ->
  author_books_total_pages gc author_id w =
    (Ok (py_ceil_div T DEFAULT_AUTHOR_BOOKS_PER_PAGE + 1),
     add_requests w [author_count_request author_id]).
Proof.
  intros Hresp Htotal.
  unfold author_books_total_pages, bind, request, lift, ret.
  rewrite Hresp. simpl. now rewrite Htotal.
Qed.

(** C9, at the failing input.  When the listing reports a total of 0 and no
    entries, retrieval makes a single request and returns an empty list, but the
    run then fails: the frame built from no records has no columns, and reading
    its [ratings_sum] (series) or [average_rating] (author) column raises
    [AttributeError] before anything is drawn. *)
Theorem empty_listing_raises_attribute_error `{Pandas} (gc : GoodreadsClient)
  (url : string) (entity_id c m : Z) (p s : bool) (w : World)
  (first_books : list BookDict) :
  (series_url_to_series_id url = Ok entity_id ->
   respond gc (requests w) (series_request entity_id 1) =
     Ok (SeriesShow "0" []) ->
   series_all_pages gc entity_id w =
     (Ok [], add_requests w [series_request entity_id 1])
   /\ graph_series gc url c p s w =
        (Raise AttributeError, add_requests w [series_request entity_id 1]))
  /\ (author_url_to_author_id url = Ok entity_id ->
      respond gc (requests w) (author_count_request entity_id) =
        Ok (AuthorList "0" first_books) ->
      author_books_all_pages gc entity_id w =
        (Ok [], add_requests w [author_count_request entity_id])
      /\ graph_author gc url c p s m w =
           (Raise AttributeError,
            add_requests w [author_count_request entity_id])).
Proof.
  split.
  - intros Hid Hresp.
    assert (Hall : series_all_pages gc entity_id w =
                     (Ok [], add_requests w [series_request entity_id 1])).
    { unfold series_all_pages, bind at 1.
      rewrite (series_page_ok _ _ _ _ _ _ Hresp). reflexivity. }
    split; [exact Hall |].
    unfold graph_series, bind, lift. rewrite Hid, Hall. reflexivity.
  - intros Hid Hresp.
    assert (Hall : author_books_all_pages gc entity_id w =
                     (Ok [], add_requests w [author_count_request entity_id])).
    { unfold author_books_all_pages, bind at 1.
      rewrite (author_books_total_pages_ok _ _ _ _ _ 0 Hresp eq_refl).
      reflexivity. }
    split; [exact Hall |].
    unfold graph_author, bind, lift. rewrite Hid, Hall. reflexivity.
Qed.

Lemma empty_listing_raises_attribute_error_witness :
  @graph_series stable_pandas (series_client "0" []) ex_series_url (-1)
     false false empty_world =
    (Raise AttributeError,
     add_requests empty_world [series_request 49397 1])
  /\ @graph_author stable_pandas (author_client "0" [] []) ex_author_url (-1)
        false false 1 empty_world =
       (Raise AttributeError,
        add_requests empty_world [author_count_request 2565]).
Proof.
  split.
  - apply (proj1 (@empty_listing_raises_attribute_error stable_pandas
                    (series_client "0" []) ex_series_url 49397 (-1) 1
                    false false empty_world [])).
    + vm_compute. reflexivity.
    + reflexivity.
  - apply (proj2 (@empty_listing_raises_attribute_error stable_pandas
                    (author_client "0" [] []) ex_author_url 2565 (-1) 1
                    false false empty_world [])).
    + vm_compute. reflexivity.
    + reflexivity.
Defined.

Lemma py_range_cons (lo hi : Z) :
  lo < hi -> py_range lo hi = lo :: py_range (lo + 1) hi.
Proof.
  intros Hlt. unfold py_range.
  replace (Z.to_nat (hi - lo)) with (S (Z.to_nat (hi - (lo + 1)))) by lia.
  cbn [seq map]. f_equal; [lia |].
  rewrite <- seq_shift, map_map. apply map_ext. intros k. lia.
Qed.

Lemma py_range_empty (lo hi : Z) : hi <= lo -> py_range lo hi = [].
Proof.
  intros Hle. unfold py_range.
  now replace (Z.to_nat (hi - lo)) with O by lia.
Qed.

Lemma py_range_length (lo hi : Z) :
  List.length (py_range lo hi) = Z.to_nat (hi - lo).
Proof. unfold py_range. now rewrite length_map, length_seq. Qed.

Lemma mapM_series_pages (gc : GoodreadsClient) (series_id : Z) :
  (forall h p, exists c ws,
      respond gc h (series_request series_id p) = Ok (SeriesShow c ws)) ->
  forall ps w, exists pages,
    mapM (series_works_of_page gc series_id) ps w =
      (Ok pages, add_requests w (map (series_request series_id) ps)).
Proof.
  intros Hok. induction ps as [| p ps IH]; intros w.
  - exists []. simpl. unfold ret. now rewrite add_requests_nil.
  - destruct (Hok (requests w) p) as (c & ws & Hresp).
    destruct (IH (add_requests w [series_request series_id p]))
      as (pages & Hpages).
    exists (ws :: pages). cbn [mapM map].
    unfold bind at 1. unfold series_works_of_page at 1. unfold bind at 1.
    rewrite (series_page_ok _ _ _ _ _ _ Hresp). unfold ret at 1.
    unfold bind at 1. rewrite Hpages. unfold ret.
    now rewrite add_requests_app.
Qed.

Lemma author_books_for_page_ok (gc : GoodreadsClient) (author_id page : Z)
  (w : World) (t : string) (bs : list BookDict) (gbs : list GoodreadsBook) :
  respond gc (requests w) (author_page_request author_id page) =
    Ok (AuthorList t bs) ->
  rmap goodreads_book bs = Ok gbs ->
  author_books_for_page gc author_id page w =
    (Ok gbs, add_requests w [author_page_request author_id page]).
Proof.
  intros Hresp Hbooks.
  unfold author_books_for_page, bind, request, lift.
  rewrite Hresp. simpl. now rewrite Hbooks.
Qed.

Lemma mapM_author_pages (gc : GoodreadsClient) (author_id : Z) :
  (forall h p, exists t bs gbs,
      respond gc h (author_page_request author_id p) = Ok (AuthorList t bs)
      /\ rmap goodreads_book bs = Ok gbs) ->
  forall ps w, exists pages,
    mapM (author_books_for_page gc author_id) ps w =
      (Ok pages, add_requests w (map (author_page_request author_id) ps)).
Proof.
  intros Hok. induction ps as [| p ps IH]; intros w.
  - exists []. simpl. unfold ret. now rewrite add_requests_nil.
  - destruct (Hok (requests w) p) as (t & bs & gbs & Hresp & Hbooks).
    destruct (IH (add_requests w [author_page_request author_id p]))
      as (pages & Hpages).
    exists (gbs :: pages). cbn [mapM map]. unfold bind at 1.
    rewrite (author_books_for_page_ok _ _ _ _ _ _ _ Hresp Hbooks).
    unfold bind at 1. rewrite Hpages. unfold ret.
    now rewrite add_requests_app.
Qed.




Lemma author_books_for_page_requests (gc : GoodreadsClient)
  (author_id page : Z) (w : World) :
  requests (snd (author_books_for_page gc author_id page w)) =
  requests w ++ [author_page_request author_id page].
Proof.
  unfold author_books_for_page, bind, request, lift.
  destruct (respond gc (requests w) (author_page_request author_id page))
    as [resp | e]; [| reflexivity].
  destruct (author_books resp); reflexivity.
Qed.

Lemma mapM_author_pages_extend (gc : GoodreadsClient) (author_id : Z) :
  forall ps w, exists later,
    requests (snd (mapM (author_books_for_page gc author_id) ps w)) =
    requests w ++ later.
Proof.
  induction ps as [| p ps IH]; intros w.
  - exists []. simpl. now rewrite app_nil_r.
  - cbn [mapM]. unfold bind at 1.
    pose proof (author_books_for_page_requests gc author_id p w) as Hp.
    destruct (author_books_for_page gc author_id p w) as [[gbs | e] w1].
    + destruct (IH w1) as (later & Hlater). simpl in Hp.
      exists (author_page_request author_id p :: later).
      unfold bind at 1.
      destruct (mapM (author_books_for_page gc author_id) ps w1)
        as [[pages | e] w2]; simpl in *; rewrite Hlater, Hp;
        now rewrite <- app_assoc.
    + exists [author_page_request author_id p]. exact Hp.
Qed.




(** ** The rating sort *)

Section ListFacts.

Context {A : Type}.

Lemma take_seq_from (pre l : list A) :
  take (pre ++ l) (seq (List.length pre) (List.length l)) = l.
Proof.
  revert pre. induction l as [| x l IH]; intros pre; [reflexivity |].
  cbn [List.length seq take flat_map].
  rewrite nth_error_app2, Nat.sub_diag by lia. cbn [nth_error app]. f_equal.
  specialize (IH (pre ++ [x])). rewrite <- app_assoc, length_app in IH.
  cbn [List.length app] in IH. rewrite Nat.add_1_r in IH. exact IH.
Qed.

Lemma take_all (df : list A) : take df (seq 0 (List.length df)) = df.
Proof. exact (take_seq_from [] df). Qed.

Lemma take_permutation (df : list A) (ix : list nat) :
  Permutation ix (seq 0 (List.length df)) -> Permutation (take df ix) df.
Proof.
  intros Hperm. rewrite <- (take_all df) at 2.
  unfold take. now apply Permutation_flat_map.
Qed.

Lemma map_take (key : A -> Rating) (df : list A) (ix : list nat) :
  Forall (fun i => (i < List.length df)%nat) ix ->
  map key (take df ix) = map (fun i => nth i (map key df) NaN) ix.
Proof.
  induction 1 as [| i ix Hi _ IH]; [reflexivity |].
  cbn [take flat_map map]. fold (take df ix). rewrite map_app, IH. f_equal.
  destruct (nth_error df i) as [row |] eqn:Hrow.
  - apply (map_nth_error key) in Hrow.
    now rewrite (nth_error_nth _ _ NaN Hrow).
  - apply nth_error_None in Hrow. lia.
Qed.

Lemma filter_partition (f : A -> bool) (l : list A) :
  Permutation (filter (fun x => negb (f x)) l ++ filter f l) l.
Proof.
  induction l as [| x l IH]; [constructor |].
  cbn [filter]. destruct (f x); cbn [negb app].
  - apply Permutation_sym, Permutation_cons_app. now apply Permutation_sym.
  - now constructor.
Qed.

Lemma StronglySorted_app (R : A -> A -> Prop) (l1 l2 : list A) :
  StronglySorted R l1 -> StronglySorted R l2 ->
  (forall x y, In x l1 -> In y l2 -> R x y) ->
  StronglySorted R (l1 ++ l2).
Proof.
  intros H1 H2 Hcross. induction H1 as [| a l1 Hs IH Hall]; [exact H2 |].
  cbn [app]. constructor.
  - apply IH. intros x y Hx Hy. apply Hcross; [now right | exact Hy].
  - apply Forall_app. split; [exact Hall |].
    apply Forall_forall. intros y Hy. apply Hcross; [now left | exact Hy].
Qed.

Lemma StronglySorted_rev (R : A -> A -> Prop) (l : list A) :
  StronglySorted R l -> StronglySorted (fun x y => R y x) (rev l).
Proof.
  induction 1 as [| a l Hs IH Hall]; [constructor |].
  cbn [rev]. apply StronglySorted_app; [exact IH | repeat constructor |].
  intros x y Hx [<- | []]. apply in_rev in Hx.
  now apply (proj1 (Forall_forall _ _) Hall).
Qed.

Lemma StronglySorted_weaken (R R' : A -> A -> Prop) (l : list A) :
  (forall x y, In x l -> In y l -> R x y -> R' x y) ->
  StronglySorted R l -> StronglySorted R' l.
Proof.
  intros Himp Hs. induction Hs as [| a l Hs IH Hall]; [constructor |].
  constructor.
  - apply IH. intros x y Hx Hy. apply Himp; now right.
  - apply Forall_forall. intros y Hy. apply Himp; [now left | now right |].
    now apply (proj1 (Forall_forall _ _) Hall).
Qed.

End ListFacts.

Lemma map_nth_seq (l : list nat) :
  map (fun j => nth j l O) (seq 0 (List.length l)) = l.
Proof.
  apply nth_ext with (d := O) (d' := O).
  - now rewrite length_map, length_seq.
  - intros n Hn. rewrite length_map, length_seq in Hn.
    rewrite (nth_indep _ O (nth O l O)) by now rewrite length_map, length_seq.
    rewrite (map_nth (fun j => nth j l O)), seq_nth by assumption.
    reflexivity.
Qed.

Section NargsortFacts.

Context `{P : Pandas}.
Hypothesis argsort_holds : argsort_ok P.

Lemma nargsort_desc_permutation (items : list Rating) :
  Permutation (nargsort_desc items) (seq 0 (List.length items)).
Proof.
  unfold nargsort_desc.
  set (idx := seq 0 (List.length items)).
  set (mask := fun i => isnan (nth i items NaN)).
  set (nni := rev (filter (fun i => negb (mask i)) idx)).
  set (non_nans := map (fun i => nth i items NaN) nni).
  destruct (argsort_holds non_nans) as [Hperm _].
  unfold non_nans in Hperm. rewrite length_map in Hperm.
  apply Permutation_trans
    with (filter (fun i => negb (mask i)) idx ++ filter mask idx);
    [| apply filter_partition].
  apply Permutation_app_tail.
  apply Permutation_trans
    with (map (fun j => nth j nni O) (argsort non_nans));
    [apply Permutation_sym, Permutation_rev |].
  apply Permutation_trans with nni;
    [| apply Permutation_sym, Permutation_rev].
  apply Permutation_trans
    with (map (fun j => nth j nni O) (seq 0 (List.length nni)));
    [now apply Permutation_map | now rewrite map_nth_seq].
Qed.

Lemma nargsort_desc_sorted (items : list Rating) :
  StronglySorted desc_nan_last
    (map (fun i => nth i items NaN) (nargsort_desc items)).
Proof.
  unfold nargsort_desc.
  set (idx := seq 0 (List.length items)).
  set (mask := fun i => isnan (nth i items NaN)).
  set (nni := rev (filter (fun i => negb (mask i)) idx)).
  set (non_nans := map (fun i => nth i items NaN) nni).
  destruct (argsort_holds non_nans) as [Hperm Hsorted].
  assert (Hkeys :
    map (fun i => nth i items NaN)
        (map (fun j => nth j nni O) (argsort non_nans)) =
    map (fun j => nth j non_nans NaN) (argsort non_nans)).
  { rewrite map_map. apply map_ext_in. intros j Hj.
    apply (Permutation_in _ Hperm), in_seq in Hj.
    rewrite (nth_indep non_nans NaN (nth O items NaN)) by lia.
    unfold non_nans.
    now rewrite (map_nth (fun i => nth i items NaN)). }
  assert (Hnot_nan : forall x,
    In x (map (fun i => nth i items NaN)
              (map (fun j => nth j nni O) (argsort non_nans))) ->
    isnan x = false).
  { intros x Hx. apply in_map_iff in Hx. destruct Hx as (i & <- & Hi).
    assert (Hin : In i nni).
    { apply in_map_iff in Hi. destruct Hi as (j & <- & Hj).
      apply (Permutation_in _ Hperm), in_seq in Hj.
      unfold non_nans in Hj. rewrite length_map in Hj.
      apply nth_In. lia. }
    unfold nni in Hin. apply in_rev, filter_In in Hin.
    destruct Hin as [_ Hmask]. unfold mask in Hmask.
    now apply negb_true_iff in Hmask. }
  rewrite map_app, map_rev. apply StronglySorted_app.
  - apply StronglySorted_weaken
      with (R := fun x y => rating_leb y x = true).
    + intros x y Hx Hy Hle. right. split; [| exact Hle].
      apply Hnot_nan. now apply in_rev.
    + apply (StronglySorted_rev (fun x y => rating_leb x y = true)).
      change (StronglySorted (fun x y => rating_leb x y = true)
                (map (fun i => nth i items NaN)
                     (map (fun j => nth j nni O) (argsort non_nans)))).
      rewrite Hkeys. exact Hsorted.
  - apply StronglySorted_weaken with (R := fun _ y => isnan y = true).
    + intros x y _ _ Hy. now left.
    + assert (Hall : Forall (fun y => isnan y = true)
                       (map (fun i => nth i items NaN) (filter mask idx))).
      { apply Forall_forall. intros y Hy. apply in_map_iff in Hy.
        destruct Hy as (i & <- & Hi). now apply filter_In in Hi. }
      induction Hall as [| y l Hy Hall IH]; constructor; assumption.
  - intros x y _ Hy. left. apply in_map_iff in Hy.
    destruct Hy as (i & <- & Hi). now apply filter_In in Hi.
Qed.

Lemma sort_values_desc_permutation {A : Type} (key : A -> Rating)
  (df : list A) :
  Permutation (sort_values_desc key df) df.
Proof.
  unfold sort_values_desc. apply take_permutation.
  rewrite <- (length_map key). apply nargsort_desc_permutation.
Qed.

Lemma sort_values_desc_sorted {A : Type} (key : A -> Rating) (df : list A) :
  StronglySorted desc_nan_last (map key (sort_values_desc key df)).
Proof.
  unfold sort_values_desc. rewrite map_take.
  - apply nargsort_desc_sorted.
  - apply Forall_forall. intros i Hi.
    apply (Permutation_in _ (nargsort_desc_permutation (map key df))) in Hi.
    apply in_seq in Hi. rewrite length_map in Hi. lia.
Qed.

End NargsortFacts.

(** *** The two insertion sorts meet [argsort_ok] *)

Lemma rating_leb_total (x y : Rating) :
  rating_leb x y = true \/ rating_leb y x = true.
Proof.
  destruct x as [a | | |], y as [b | | |]; simpl; auto.
  rewrite !Qle_bool_iff.
  destruct (Qlt_le_dec a b) as [Hlt | Hle]; [left | right]; auto.
  now apply Qlt_le_weak.
Qed.

Lemma rating_leb_trans (x y z : Rating) :
  rating_leb x y = true -> rating_leb y z = true -> rating_leb x z = true.
Proof.
  destruct x as [a | | |], y as [b | | |], z as [c | | |]; simpl;
    try discriminate; try reflexivity.
  rewrite !Qle_bool_iff. apply Qle_trans.
Qed.

Section InsertionArgsort.

Variable after_equal : bool.
Variable items : list Rating.

Let before (i j : nat) : Prop :=
  rating_leb (nth i items NaN) (nth j items NaN) = true.

Lemma insert_index_permutation (i : nat) (sorted : list nat) :
  Permutation (insert_index after_equal items i sorted) (i :: sorted).
Proof.
  induction sorted as [| j rest IH]; cbn [insert_index]; [reflexivity |].
  destruct (if after_equal
            then negb (rating_leb (nth j items NaN) (nth i items NaN))
            else rating_leb (nth i items NaN) (nth j items NaN));
    [reflexivity |].
  apply Permutation_trans with (j :: i :: rest);
    [now constructor | constructor].
Qed.

Lemma insert_index_sorted (i : nat) (sorted : list nat) :
  StronglySorted before sorted ->
  StronglySorted before (insert_index after_equal items i sorted).
Proof.
  induction 1 as [| j rest Hs IH Hall]; cbn [insert_index];
    [repeat constructor |].
  destruct (if after_equal
            then negb (rating_leb (nth j items NaN) (nth i items NaN))
            else rating_leb (nth i items NaN) (nth j items NaN)) eqn:Hcmp.
  - assert (Hij : before i j).
    { unfold before. destruct after_equal; [| exact Hcmp].
      apply negb_true_iff in Hcmp.
      destruct (rating_leb_total (nth i items NaN) (nth j items NaN));
        congruence. }
    constructor; [now constructor |].
    constructor; [exact Hij |].
    apply Forall_forall. intros k Hk.
    apply (proj1 (Forall_forall _ _) Hall) in Hk.
    exact (rating_leb_trans _ _ _ Hij Hk).
  - assert (Hji : before j i).
    { unfold before. destruct after_equal.
      - now apply negb_false_iff in Hcmp.
      - destruct (rating_leb_total (nth i items NaN) (nth j items NaN));
          congruence. }
    constructor; [exact IH |].
    apply (Permutation_Forall
             (Permutation_sym (insert_index_permutation i rest))).
    now constructor.
Qed.

Lemma fold_insert_index (l acc : list nat) :
  StronglySorted before acc ->
  StronglySorted before
    (fold_left (fun acc i => insert_index after_equal items i acc) l acc)
  /\ Permutation
       (fold_left (fun acc i => insert_index after_equal items i acc) l acc)
       (l ++ acc).
Proof.
  revert acc. induction l as [| i l IH]; intros acc Hacc; cbn [fold_left app].
  - now split.
  - destruct (IH _ (insert_index_sorted i acc Hacc)) as [Hs Hp].
    split; [exact Hs |].
    apply (Permutation_trans Hp).
    apply Permutation_trans with (l ++ i :: acc).
    + apply Permutation_app_head, insert_index_permutation.
    + apply Permutation_sym, Permutation_middle.
Qed.

End InsertionArgsort.

Lemma StronglySorted_map {A B : Type} (R : B -> B -> Prop) (f : A -> B)
  (l : list A) :
  StronglySorted (fun x y => R (f x) (f y)) l -> StronglySorted R (map f l).
Proof.
  induction 1 as [| a l Hs IH Hall]; cbn [map]; constructor; [exact IH |].
  apply Forall_map. exact Hall.
Qed.

Lemma insertion_argsort_ok (after_equal : bool) (items : list Rating) :
  Permutation (insertion_argsort after_equal items)
              (seq 0 (List.length items))
  /\ StronglySorted (fun x y => rating_leb x y = true)
       (map (fun i => nth i items NaN) (insertion_argsort after_equal items)).
Proof.
  destruct (fold_insert_index after_equal items (seq 0 (List.length items)) [])
    as [Hs Hp]; [constructor |].
  split.
  - unfold insertion_argsort. now rewrite app_nil_r in Hp.
  - apply StronglySorted_map. exact Hs.
Qed.

Lemma stable_pandas_ok : argsort_ok stable_pandas.
Proof. intros items. apply insertion_argsort_ok. Qed.

Lemma tie_reversing_pandas_ok : argsort_ok tie_reversing_pandas.
Proof. intros items. apply insertion_argsort_ok. Qed.

(** *** Lists of three *)

Lemma permutation_of_three {A : Type} (a b c : A) (l : list A) :
  Permutation l [a; b; c] ->
  l = [a; b; c] \/ l = [a; c; b] \/ l = [b; a; c] \/
  l = [b; c; a] \/ l = [c; a; b] \/ l = [c; b; a].
Proof.
  intros Hp. pose proof (Permutation_length Hp) as Hlen.
  destruct l as [| x [| y [| z [| ? ?]]]]; try discriminate Hlen.
  assert (Hx : In x [a; b; c]) by (apply (Permutation_in _ Hp); now left).
  destruct Hx as [<- | [<- | [<- | []]]].
  - apply Permutation_cons_inv, Permutation_sym,
      Permutation_length_2_inv in Hp.
    destruct Hp as [Hp | Hp]; injection Hp as -> ->; auto.
  - apply (fun H => Permutation_trans H (perm_swap b a [c])) in Hp.
    apply Permutation_cons_inv, Permutation_sym,
      Permutation_length_2_inv in Hp.
    destruct Hp as [Hp | Hp]; injection Hp as -> ->; auto 6.
  - assert (Hrot : Permutation [a; b; c] [c; a; b]).
    { apply Permutation_trans with [a; c; b]; [| apply perm_swap].
      constructor. apply perm_swap. }
    apply (fun H => Permutation_trans H Hrot) in Hp.
    apply Permutation_cons_inv, Permutation_sym,
      Permutation_length_2_inv in Hp.
    destruct Hp as [Hp | Hp]; injection Hp as -> ->; auto 8.
Qed.

Lemma sorted_three {A : Type} (R : A -> A -> Prop) (x y z : A) :
  StronglySorted R [x; y; z] -> R x y /\ R y z.
Proof.
  intros Hs. apply StronglySorted_inv in Hs. destruct Hs as [Hs Hx].
  apply StronglySorted_inv in Hs. destruct Hs as [_ Hy].
  split; [now inversion Hx | now inversion Hy].
Qed.

Lemma sorted_chart {A : Type} `{P : Pandas} (key : A -> Rating)
  (point : A -> string * Rating) (df : list A) (c : Z) :
  argsort_ok P ->
  (forall r, snd (point r) = key r) ->
  Permutation (map point (sort_values_desc key (py_slice df c)))
              (py_slice (map point df) c)
  /\ StronglySorted desc_nan_last
       (map snd (map point (sort_values_desc key (py_slice df c)))).
Proof.
  intros Hok Hkey. split.
  - rewrite py_slice_map. apply Permutation_map.
    now apply sort_values_desc_permutation.
  - rewrite map_map. rewrite (map_ext _ key) by exact Hkey.
    now apply sort_values_desc_sorted.
Qed.




(** ** The series frame *)

Lemma rmap_ok {A B : Type} (f : A -> result B) (l : list A) :
  Forall (fun x => exists y, f x = Ok y) l ->
  exists ys, rmap f l = Ok ys /\ Forall2 (fun x y => f x = Ok y) l ys.
Proof.
  induction 1 as [| x l [y Hy] _ (ys & Hys & Hall)].
  - exists []. split; [reflexivity | constructor].
  - exists (y :: ys). cbn [rmap]. rewrite Hy. cbn [rbind]. rewrite Hys.
    split; [reflexivity | now constructor].
Qed.

Lemma series_rows_of_books (books : list SeriesDf.Book) :
  forall sums counts,
    Forall2 (fun b n => to_int64 (SeriesDf.b_ratings_sum b) = Ok n)
            books sums ->
    Forall2 (fun b n => to_int64 (SeriesDf.b_ratings_count b) = Ok n)
            books counts ->
    Forall2 row_of_book books
      (map (fun bc => series_row (fst bc) (snd bc))
           (combine books (combine sums counts))).
Proof.
  induction books as [| b books IH]; intros sums counts Hs Hc;
    inversion Hs; inversion Hc; subst; cbn [combine map]; constructor.
  - unfold row_of_book, series_row. cbn. auto.
  - now apply IH.
Qed.

Lemma true_divide_by_zero (a : Z) :
  true_divide a 0 = NaN \/ true_divide a 0 = PosInf
  \/ true_divide a 0 = NegInf.
Proof.
  unfold true_divide. cbn.
  destruct (a =? 0)%Z; [auto |]. destruct (0 <? a)%Z; auto.
Qed.

Lemma Forall2_map_l {A B C : Type} (f : A -> B) (R : B -> C -> Prop)
  (l : list A) (l' : list C) :
  Forall2 R (map f l) l' -> Forall2 (fun x y => R (f x) y) l l'.
Proof.
  revert l'. induction l as [| x l IH]; intros l' H; inversion H; subst;
    constructor; auto.
Qed.




(** ** The loops against the console *)

(** A computation that reads console lines but never puts any back. *)
Definition consumes {A : Type} (m : M A) : Prop :=
  forall w, (List.length (stdin (snd (m w))) <= List.length (stdin w))%nat.

Lemma set_stdin_same (w : World) : set_stdin w (stdin w) = w.
Proof. now destruct w. Qed.

Lemma consumes_lift {A : Type} (r : result A) : consumes (lift r).
Proof. intros w. simpl. lia. Qed.

Lemma consumes_ret {A : Type} (a : A) : consumes (ret a).
Proof. intros w. simpl. lia. Qed.

Lemma consumes_bind {A B : Type} (m : M A) (k : A -> M B) :
  consumes m -> (forall a, consumes (k a)) -> consumes (bind m k).
Proof.
  intros Hm Hk w. unfold bind. specialize (Hm w).
  destruct (m w) as [[a | e] w1]; simpl in *; [| exact Hm].
  specialize (Hk a w1). lia.
Qed.

Lemma consumes_request (gc : GoodreadsClient) (r : Request) :
  consumes (request gc r).
Proof. intros w. simpl. lia. Qed.

Lemma consumes_input : consumes input.
Proof.
  intros w. unfold input.
  destruct (stdin w) as [| line rest] eqn:Hin; simpl; rewrite ?Hin; simpl; lia.
Qed.

Lemma consumes_plot_scatter `{Pandas} (c : Chart) : consumes (plot_scatter c).
Proof. intros w. simpl. lia. Qed.

Lemma consumes_mapM {A B : Type} (f : A -> M B) (l : list A) :
  (forall x, consumes (f x)) -> consumes (mapM f l).
Proof.
  intros Hf. induction l as [| x l IH]; cbn [mapM]; [apply consumes_ret |].
  apply consumes_bind; [apply Hf |]. intros y.
  apply consumes_bind; [exact IH |]. intros ys. apply consumes_ret.
Qed.

Lemma consumes_for_each {A : Type} (body : A -> M unit) (l : list A) :
  (forall x, consumes (body x)) -> consumes (for_each l body).
Proof.
  intros Hb. induction l as [| x l IH]; cbn [for_each]; [apply consumes_ret |].
  apply consumes_bind; [apply Hb | intros _; exact IH].
Qed.

Lemma prompt_loop_consumes (graph : Z -> M unit) :
  (forall c, consumes (graph c)) ->
  forall lines c w,
    (List.length lines <= List.length (stdin w))%nat ->
    (List.length (stdin (snd (prompt_loop graph c lines w))) <=
     List.length (stdin w))%nat.
Proof.
  intros Hg. induction lines as [| line rest IH]; intros c w Hlen;
    cbn [prompt_loop]; specialize (Hg c w);
    destruct (graph c w) as [[u | e] w1]; simpl in *; try lia.
  destruct (new_cut_off line) as [n | e]; simpl; [| lia].
  destruct (n =? 0)%Z; simpl; [lia |].
  specialize (IH n (set_stdin w1 rest)). simpl in IH. lia.
Qed.

Lemma consumes_cutoff_loop (graph : Z -> M unit) (prompt : bool) (c : Z) :
  (forall c, consumes (graph c)) -> consumes (cutoff_loop graph prompt c).
Proof.
  intros Hg w. unfold cutoff_loop. destruct prompt; [| apply Hg].
  now apply prompt_loop_consumes.
Qed.

(** The loop walks down the list of unread lines; this is the same as reading
    them one [input] at a time, as the source does, because drawing leaves the
    console alone. *)
Lemma prompt_loop_reads_with_input (graph : Z -> M unit) (c : Z) (w : World) :
  (forall c w, stdin (snd (graph c w)) = stdin w) ->
  prompt_loop graph c (stdin w) w =
  (graph c ;;;
   line <- input ;;
   NEW_CUT_OFF <- lift (new_cut_off line) ;;
   if (NEW_CUT_OFF =? 0)%Z
   then ret tt
   else fun w' => prompt_loop graph NEW_CUT_OFF (stdin w') w') w.
Proof.
  intros Hkeep. unfold bind, input, lift, ret. specialize (Hkeep c w).
  destruct (stdin w) as [| line rest] eqn:Hin; cbn [prompt_loop];
    destruct (graph c w) as [[[] | e] w1]; simpl in Hkeep; rewrite ?Hkeep;
    try reflexivity.
  - now rewrite <- Hkeep, set_stdin_same.
  - fold (set_stdin w1 rest).
    destruct (new_cut_off line) as [n | e]; [| reflexivity].
    destruct (n =? 0)%Z; reflexivity.
Qed.

Lemma consumes_series_all_pages (gc : GoodreadsClient) (series_id : Z) :
  consumes (series_all_pages gc series_id).
Proof.
  assert (Hpage : forall p, consumes (series_page gc series_id p)).
  { intros p. apply consumes_bind; [apply consumes_request |].
    intros resp. apply consumes_lift. }
  unfold series_all_pages. apply consumes_bind; [apply Hpage |]. intros first.
  apply consumes_bind; [apply consumes_lift |]. intros total.
  destruct (1 <? _)%Z; [| apply consumes_ret].
  apply consumes_bind; [| intros more; apply consumes_ret].
  apply consumes_mapM. intros p. unfold series_works_of_page.
  apply consumes_bind; [apply Hpage | intros page; apply consumes_ret].
Qed.

Lemma consumes_graph_series `{Pandas} (gc : GoodreadsClient) (url : string)
  (c : Z) (prompt sort : bool) :
  consumes (graph_series gc url c prompt sort).
Proof.
  unfold graph_series. apply consumes_bind; [apply consumes_lift |].
  intros series_id. apply consumes_bind; [apply consumes_series_all_pages |].
  intros works. apply consumes_bind; [apply consumes_lift |]. intros df.
  apply consumes_cutoff_loop. intros c'.
  destruct sort; apply consumes_plot_scatter.
Qed.

Lemma consumes_author_books_all_pages (gc : GoodreadsClient) (author_id : Z) :
  consumes (author_books_all_pages gc author_id).
Proof.
  unfold author_books_all_pages, author_books_total_pages.
  apply consumes_bind.
  - apply consumes_bind; [apply consumes_request |]. intros resp.
    apply consumes_bind; [apply consumes_lift |]. intros books.
    apply consumes_bind; [apply consumes_lift |]. intros total.
    apply consumes_ret.
  - intros pages. apply consumes_bind; [| intros pp; apply consumes_ret].
    apply consumes_mapM. intros p. unfold author_books_for_page.
    apply consumes_bind; [apply consumes_request |]. intros resp.
    apply consumes_bind; [apply consumes_lift |]. intros books.
    apply consumes_lift.
Qed.

Lemma consumes_graph_author `{Pandas} (gc : GoodreadsClient) (url : string)
  (c : Z) (prompt sort : bool) (m : Z) :
  consumes (graph_author gc url c prompt sort m).
Proof.
  unfold graph_author. apply consumes_bind; [apply consumes_lift |].
  intros author_id.
  apply consumes_bind; [apply consumes_author_books_all_pages |].
  intros books. apply consumes_bind; [apply consumes_lift |]. intros df.
  apply consumes_cutoff_loop. intros c'.
  destruct sort; apply consumes_plot_scatter.
Qed.

(** The fuel [prompt_more] gives the loop for more URLs is enough: any larger
    amount gives the same run, so the loop ends by an empty line, by an
    exception of a chart call or by the end of the console input, never by
    lack of fuel. *)
Lemma more_urls_loop_fuel (graph : string -> M unit) :
  (forall url, consumes (graph url)) ->
  forall fuel fuel' w,
    (List.length (stdin w) < fuel)%nat ->
    (List.length (stdin w) < fuel')%nat ->
    more_urls_loop fuel graph w = more_urls_loop fuel' graph w.
Proof.
  intros Hg. induction fuel as [| fuel IH]; intros fuel' w Hf Hf'; [lia |].
  destruct fuel' as [| fuel']; [lia |].
  cbn [more_urls_loop]. unfold bind at 1 3, input.
  destruct (stdin w) as [| line rest] eqn:Hin; [reflexivity |].
  destruct (String.eqb line ""); [reflexivity |].
  unfold bind.
  pose proof (consumes_for_each graph (split_spaces line) Hg
                {| requests := requests w; stdin := rest;
                   charts := charts w |}) as Hshrink.
  destruct (for_each (split_spaces line) graph _) as [[[] | e] w1];
    [| reflexivity].
  simpl in Hshrink, Hf, Hf'. apply IH; lia.
Qed.

(** The sequence of the visualization loop: with the lines 10 and 0 on the
    console the chart is drawn twice, the second time with a cut-off of 10. *)
Example two_renders_for_10_then_0 :
  @graph_series stable_pandas (series_client "3" works_ABC) ex_series_url
     1 true false (set_stdin empty_world ["10"; "0"]) =
    (Ok tt,
     {| requests := [series_request 49397 1];
        stdin := [];
        charts := [[point_A];
                   [point_A; point_B; ("C", Fin (4 # 1))]] |}).
Proof. vm_compute. reflexivity. Qed.

(** * Further properties of the code *)

(** ** What the extractors return *)

Lemma star_with_total a k g :
  (forall s, k s = Some g) -> forall s, PyStr.star_with a k s = Some g.
Proof.
  intros Hk. induction s as [| c s IH]; simpl; [apply Hk |].
  destruct (PyStr.atom_matches a c); [now rewrite IH | apply Hk].
Qed.

Lemma star_with_complete a k :
  forall s g, k s = Some g -> exists g', PyStr.star_with a k s = Some g'.
Proof.
  intros [| c s] g Hk; simpl; [now exists g |].
  destruct (PyStr.atom_matches a c); [| now exists g].
  destruct (PyStr.star_with a k s) as [r |]; [now exists r | now exists g].
Qed.

Lemma star_with_first a k :
  forall s,
    (forall pre rest, pre <> [] -> s = pre ++ rest -> k rest = None) ->
    PyStr.star_with a k s = k s.
Proof.
  induction s as [| c s IH]; intros Hnone; simpl; [reflexivity |].
  destruct (PyStr.atom_matches a c); [| reflexivity].
  rewrite IH.
  - now rewrite (Hnone [c] s ltac:(discriminate) eq_refl).
  - intros pre rest Hpre ->. apply (Hnone (c :: pre) rest); [discriminate |].
    reflexivity.
Qed.

Lemma plus_with_no_digit k acc s :
  (forall c s', s = c :: s' -> PyStr.is_digit c = false) ->
  PyStr.plus_with PyStr.Digit k acc s = None.
Proof.
  destruct s as [| c s']; intros Hhead; simpl; [reflexivity |].
  now rewrite (Hhead c s' eq_refl).
Qed.

Lemma plus_with_greedy k :
  forall ds acc rest g,
    ds <> [] -> all_digits ds ->
    (forall c s', rest = c :: s' -> PyStr.is_digit c = false) ->
    k (acc ++ ds) rest = Some g ->
    PyStr.plus_with PyStr.Digit k acc (ds ++ rest) = Some g.
Proof.
  induction ds as [| c ds IH]; intros acc rest g Hne Hds Hrest Hk;
    [contradiction |].
  inversion Hds as [| ? ? Hc Hds']; subst. cbn [app PyStr.plus_with].
  cbn [PyStr.atom_matches]. rewrite Hc.
  destruct ds as [| d ds'].
  - cbn [app]. now rewrite plus_with_no_digit.
  - rewrite (IH (acc ++ [c]) rest g); [reflexivity | discriminate | exact Hds'
                                       | exact Hrest |].
    now rewrite <- app_assoc.
Qed.

Lemma plus_with_complete k :
  forall ds acc rest g,
    ds <> [] -> all_digits ds ->
    k (acc ++ ds) rest = Some g ->
    exists g', PyStr.plus_with PyStr.Digit k acc (ds ++ rest) = Some g'.
Proof.
  induction ds as [| c ds IH]; intros acc rest g Hne Hds Hk; [contradiction |].
  inversion Hds as [| ? ? Hc Hds']; subst. cbn [app PyStr.plus_with].
  cbn [PyStr.atom_matches]. rewrite Hc.
  destruct (PyStr.plus_with PyStr.Digit k (acc ++ [c]) (ds ++ rest))
    as [r |] eqn:Hrec; [now exists r |].
  destruct ds as [| d ds'].
  - now exists g.
  - destruct (IH (acc ++ [c]) rest g) as (g' & Hg');
      [discriminate | exact Hds' | now rewrite <- app_assoc | congruence].
Qed.

Lemma re_search_complete p :
  forall pre suf g,
    PyStr.match_here p [] suf = Some g ->
    exists g', PyStr.re_search p (pre ++ suf) = Some g'.
Proof.
  induction pre as [| c pre IH]; intros suf g Hm.
  - exists g. destruct suf; simpl; now rewrite Hm.
  - cbn [app PyStr.re_search].
    destruct (PyStr.match_here p [] (c :: pre ++ suf)) as [r |];
      [now exists r | now apply IH with g].
Qed.

Lemma match_here_dot_star g s : PyStr.match_here [PyStr.Star PyStr.Dot] g s = Some g.
Proof. cbn [PyStr.match_here]. now apply star_with_total. Qed.

(** The text the series pattern captures is the run of digits it matched. *)
Lemma series_rgx_group raw g :
  PyStr.re_search series_rgx raw = Some g -> g <> [] /\ all_digits g.
Proof.
  intros Hs. apply re_search_sound in Hs.
  destruct Hs as (pre & suf & -> & Hm).
  unfold series_rgx in Hm. apply match_group_plus in Hm.
  apply plus_with_digit_sound in Hm.
  destruct Hm as (ds & rest & Hne & Hds & -> & Hk).
  apply match_one_lit in Hk. destruct Hk as (post & -> & Hk).
  rewrite match_here_dot_star in Hk. injection Hk as <-. now split.
Qed.

Lemma author_rgx_group raw g :
  PyStr.re_search author_rgx raw = Some g -> g <> [] /\ all_digits g.
Proof.
  intros Hs. apply re_search_sound in Hs.
  destruct Hs as (pre & suf & -> & Hm).
  unfold author_rgx in Hm. apply match_star in Hm.
  apply star_with_sound in Hm. destruct Hm as (dots & rest & -> & Hm).
  do 5 (apply match_one_lit in Hm; destruct Hm as (? & -> & Hm)).
  apply match_group_plus in Hm. apply plus_with_digit_sound in Hm.
  destruct Hm as (ds & rest & Hne & Hds & -> & Hk).
  apply match_one_lit in Hk. destruct Hk as (post & -> & Hk).
  rewrite match_here_dot_star in Hk. injection Hk as <-. now split.
Qed.

Lemma series_rgx_complete raw :
  has_series_pattern raw -> exists g, PyStr.re_search series_rgx raw = Some g.
Proof.
  intros (pre & ds & post & Hne & Hds & ->).
  destruct (plus_with_complete
              (PyStr.match_here (tl series_rgx)) ds [] ("-"%char :: post) ds
              Hne Hds) as (g & Hg).
  { cbn. apply star_with_total. reflexivity. }
  now apply re_search_complete with g.
Qed.

Lemma author_rgx_complete raw :
  has_author_pattern raw -> exists g, PyStr.re_search author_rgx raw = Some g.
Proof.
  intros (pre & ds & post & Hne & Hds & ->).
  destruct (plus_with_complete
              (PyStr.match_here [PyStr.One (PyStr.Lit "."); PyStr.Star PyStr.Dot])
              ds [] ("."%char :: post) ds Hne Hds) as (g & Hg).
  { cbn. apply star_with_total. reflexivity. }
  destruct (star_with_complete PyStr.Dot
              (PyStr.match_here (tl author_rgx) [])
              (PyStr.chars "show/" ++ ds ++ "."%char :: post) g Hg)
    as (g' & Hg').
  now apply re_search_complete with g'.
Qed.

Lemma digit_bounds (c : ascii) :
  PyStr.is_digit c = true -> (48 <= nat_of_ascii c <= 57)%nat.
Proof.
  unfold PyStr.is_digit. rewrite andb_true_iff, !Nat.leb_le. tauto.
Qed.

Lemma digit_not_space (c : ascii) :
  PyStr.is_digit c = true -> PyStr.is_space c = false.
Proof.
  intros Hc. apply digit_bounds in Hc. unfold PyStr.is_space.
  destruct (Nat.eqb_spec (nat_of_ascii c) 32); [lia |].
  destruct (Nat.leb_spec 9 (nat_of_ascii c)); [| reflexivity].
  destruct (Nat.leb_spec (nat_of_ascii c) 13); [lia | reflexivity].
Qed.

Lemma drop_spaces_digits (ds : list ascii) :
  all_digits ds -> PyStr.drop_spaces ds = ds.
Proof.
  intros Hds. destruct Hds as [| c ds Hc _]; [reflexivity |].
  simpl. now rewrite (digit_not_space c Hc).
Qed.

Lemma strip_digits (ds : list ascii) : all_digits ds -> PyStr.strip ds = ds.
Proof.
  intros Hds. unfold PyStr.strip. rewrite (drop_spaces_digits ds Hds).
  rewrite drop_spaces_digits by now apply Forall_rev.
  apply rev_involutive.
Qed.

Lemma digits_value_digits :
  forall ds prev acc,
    all_digits ds -> ds <> [] \/ prev = true ->
    PyStr.digits_value ds prev acc =
    Some (fold_left (fun a c => 10 * a + PyStr.digit_value c) ds acc).
Proof.
  induction ds as [| c ds IH]; intros prev acc Hds Hne; cbn.
  - destruct Hne as [Hne | ->]; [contradiction | reflexivity].
  - inversion Hds as [| ? ? Hc Hds']; subst. rewrite Hc.
    apply IH; [exact Hds' | now right].
Qed.

Lemma int_chars_digits (ds : list ascii) :
  ds <> [] -> all_digits ds ->
  PyStr.int_chars ds = Some (decimal_value ds).
Proof.
  intros Hne Hds. unfold PyStr.int_chars, decimal_value.
  rewrite (strip_digits ds Hds).
  rewrite <- (digits_value_digits ds false 0 Hds (or_introl Hne)).
  destruct ds as [| c ds']; [contradiction |].
  inversion Hds as [| ? ? Hc _]; subst.
  destruct c as [[] [] [] [] [] [] [] []];
    first [discriminate Hc | reflexivity].
Qed.

Lemma decimal_value_nonneg (ds : list ascii) :
  all_digits ds -> 0 <= decimal_value ds.
Proof.
  unfold decimal_value.
  assert (Hgen : forall acc, 0 <= acc -> all_digits ds ->
            0 <= fold_left (fun a c => 10 * a + PyStr.digit_value c) ds acc).
  { induction ds as [| c ds IH]; intros acc Hacc Hds; cbn [fold_left];
      [exact Hacc |].
    inversion Hds as [| ? ? Hc Hds']; subst. apply IH; [| exact Hds'].
    apply digit_bounds in Hc. unfold PyStr.digit_value. lia. }
  intros Hds. apply Hgen; [lia | exact Hds].
Qed.

Lemma py_int_digits (ds : list ascii) :
  ds <> [] -> all_digits ds ->
  py_int (string_of_list_ascii ds) = Ok (decimal_value ds).
Proof.
  intros Hne Hds. unfold py_int, PyStr.chars.
  rewrite list_ascii_of_string_of_list_ascii.
  now rewrite (int_chars_digits ds Hne Hds).
Qed.



(** ** Well-formed URLs *)

Lemma starts_with_app (pat rest : list ascii) :
  PyStr.starts_with pat (pat ++ rest) = true.
Proof.
  induction pat as [| p pat IH]; [reflexivity |].
  cbn. now rewrite Ascii.eqb_refl, IH.
Qed.

Lemma remove_from_skip (pat : list ascii) :
  forall pre rest,
    PyStr.remove_from pat (pre ++ rest) (List.length pre) =
    PyStr.remove_from pat rest O.
Proof. induction pre as [| c pre IH]; intros rest; [reflexivity | apply IH]. Qed.

Lemma replace_leading_prefix (pat rest : list ascii) :
  pat <> [] ->
  PyStr.replace_with_empty pat (pat ++ rest) = PyStr.remove_from pat rest O.
Proof.
  destruct pat as [| p pat']; [contradiction |]. intros _.
  unfold PyStr.replace_with_empty.
  change ((p :: pat') ++ rest) with (p :: (pat' ++ rest)).
  cbn [PyStr.remove_from].
  change (p :: pat' ++ rest) with ((p :: pat') ++ rest).
  rewrite starts_with_app. cbn [List.length Nat.pred].
  apply remove_from_skip.
Qed.

Lemma remove_from_keep (p : ascii) (pat' : list ascii) :
  forall pre rest,
    Forall (fun c => c <> p) pre ->
    PyStr.remove_from (p :: pat') (pre ++ rest) O =
    pre ++ PyStr.remove_from (p :: pat') rest O.
Proof.
  induction pre as [| c pre IH]; intros rest Hpre; [reflexivity |].
  inversion Hpre as [| ? ? Hc Hpre']; subst.
  cbn [app PyStr.remove_from PyStr.starts_with].
  destruct (Ascii.eqb_spec p c) as [-> | _]; [contradiction |].
  cbn [andb]. now rewrite IH.
Qed.

Lemma in_remove_from (pat : list ascii) (c : ascii) :
  forall s skip, In c (PyStr.remove_from pat s skip) -> In c s.
Proof.
  induction s as [| x s IH]; intros skip Hin; cbn in Hin; [contradiction |].
  destruct skip as [| k].
  - destruct (PyStr.starts_with pat (x :: s)).
    + right. now apply IH with (Nat.pred (List.length pat)).
    + destruct Hin as [-> | Hin]; [now left | right; now apply IH with O].
  - right. now apply IH with k.
Qed.

Lemma digit_is_not (c x : ascii) :
  PyStr.is_digit c = true ->
  (nat_of_ascii x < 48 \/ 57 < nat_of_ascii x)%nat -> c <> x.
Proof. intros Hc Hx ->. apply digit_bounds in Hc. lia. Qed.

Lemma digits_are_not (ds : list ascii) (x : ascii) :
  all_digits ds -> (nat_of_ascii x < 48 \/ 57 < nat_of_ascii x)%nat ->
  Forall (fun c => c <> x) ds.
Proof.
  intros Hds Hx. eapply Forall_impl; [| exact Hds].
  intros c Hc. now apply digit_is_not.
Qed.

Lemma re_search_here p s g :
  PyStr.match_here p [] s = Some g -> PyStr.re_search p s = Some g.
Proof. intros Hm. destruct s; simpl; now rewrite Hm. Qed.

(** X1.  On a series URL of the documented form, the site prefix, a run of
    digits, a hyphen and any slug, the extractor returns the number the digits
    write. *)
Theorem series_id_of_well_formed_url (ds slug : list ascii) :
  ds <> [] -> all_digits ds ->
  series_url_to_series_id (url_of (series_prefix ++ ds ++ "-"%char :: slug)) =
    Ok (decimal_value ds).
Proof.
  intros Hne Hds.
  unfold series_url_to_series_id, search_group_int, raw_series_str, url_of,
    PyStr.chars at 2.
  rewrite list_ascii_of_string_of_list_ascii.
  fold series_prefix.
  rewrite replace_leading_prefix by discriminate.
  change series_prefix with ("h"%char :: tl series_prefix).
  rewrite remove_from_keep
    by (apply digits_are_not; [exact Hds | cbn; lia]).
  set (slug' := PyStr.remove_from _ ("-"%char :: slug) O).
  assert (Hslug : exists rest, slug' = "-"%char :: rest).
  { unfold slug'. now eexists. }
  destruct Hslug as [rest ->].
  rewrite (re_search_here series_rgx _ ds); [now apply py_int_digits |].
  unfold series_rgx. cbn [PyStr.match_here].
  apply plus_with_greedy; try assumption.
  - intros c s' Heq. injection Heq as <- _. reflexivity.
  - cbn. apply star_with_total. reflexivity.
Qed.

Lemma series_id_of_well_formed_url_witness :
  series_url_to_series_id
    (url_of (series_prefix ++ PyStr.chars "49397" ++
             "-"%char :: PyStr.chars "james-bond")) = Ok 49397.
Proof.
  apply (series_id_of_well_formed_url (PyStr.chars "49397")
           (PyStr.chars "james-bond")).
  - discriminate.
  - repeat constructor.
Defined.

Lemma author_key_fails_after_start (pre rest t : list ascii) :
  pre <> [] ->
  PyStr.chars "show/" ++ t = pre ++ rest ->
  ~ In "/"%char t ->
  PyStr.match_here (tl author_rgx) [] rest = None.
Proof.
  intros Hpre Heq Hslash.
  destruct (PyStr.match_here (tl author_rgx) [] rest) as [g |] eqn:Hm;
    [| reflexivity].
  exfalso. unfold author_rgx in Hm. cbn [tl] in Hm.
  do 5 (apply match_one_lit in Hm; destruct Hm as (? & -> & Hm)).
  destruct pre as [| p1 [| p2 [| p3 [| p4 [| p5 pre']]]]];
    [contradiction | | | | |]; cbn in Heq; try discriminate Heq.
  injection Heq as _ _ _ _ _ Heq. apply Hslash. rewrite Heq.
  apply in_or_app. right. cbn. tauto.
Qed.

(** X2.  On an author URL of the documented form, the site prefix, [show/], a
    run of digits, a dot and a name without a slash, the extractor returns the
    number the digits write. *)
Theorem author_id_of_well_formed_url (ds name : list ascii) :
  ds <> [] -> all_digits ds -> ~ In "/"%char name ->
  author_url_to_author_id
    (url_of (author_prefix ++ PyStr.chars "show/" ++ ds ++ "."%char :: name)) =
    Ok (decimal_value ds).
Proof.
  intros Hne Hds Hname.
  unfold author_url_to_author_id, search_group_int, raw_author_str, url_of,
    PyStr.chars at 2.
  rewrite list_ascii_of_string_of_list_ascii.
  fold author_prefix.
  rewrite replace_leading_prefix by discriminate.
  change (PyStr.remove_from author_prefix
            (PyStr.chars "show/" ++ ds ++ "."%char :: name) O)
    with (PyStr.chars "show/" ++
          PyStr.remove_from author_prefix (ds ++ "."%char :: name) O).
  change author_prefix with ("h"%char :: tl author_prefix).
  rewrite remove_from_keep
    by (apply digits_are_not; [exact Hds | cbn; lia]).
  set (tail := PyStr.remove_from _ ("."%char :: name) O).
  assert (Htail : exists name', tail = "."%char :: name'
                                /\ ~ In "/"%char name').
  { unfold tail. eexists. split; [reflexivity |].
    intros Hin. apply in_remove_from in Hin. contradiction. }
  destruct Htail as (name' & -> & Hname').
  rewrite (re_search_here author_rgx _ ds); [now apply py_int_digits |].
  change (PyStr.star_with PyStr.Dot (PyStr.match_here (tl author_rgx) [])
            (PyStr.chars "show/" ++ ds ++ "."%char :: name') = Some ds).
  rewrite star_with_first.
  - change (PyStr.plus_with PyStr.Digit
              (PyStr.match_here
                 [PyStr.One (PyStr.Lit "."); PyStr.Star PyStr.Dot])
              [] (ds ++ "."%char :: name') = Some ds).
    apply plus_with_greedy; try assumption.
    + intros c s' Heq. injection Heq as <- _. reflexivity.
    + cbn. apply star_with_total. reflexivity.
  - intros pre rest Hpre Heq.
    apply (author_key_fails_after_start pre rest (ds ++ "."%char :: name'));
      [exact Hpre | exact Heq |].
    intros Hin. apply in_app_or in Hin. destruct Hin as [Hin | [Hin | Hin]].
    + apply (proj1 (Forall_forall _ _)
                   (digits_are_not ds "/"%char Hds ltac:(cbn; lia))) in Hin.
      now apply Hin.
    + discriminate Hin.
    + contradiction.
Qed.

Lemma author_id_of_well_formed_url_witness :
  author_url_to_author_id
    (url_of (author_prefix ++ PyStr.chars "show/" ++ PyStr.chars "2565" ++
             "."%char :: PyStr.chars "Ian_Fleming")) = Ok 2565.
Proof.
  apply (author_id_of_well_formed_url (PyStr.chars "2565")
           (PyStr.chars "Ian_Fleming")).
  - discriminate.
  - repeat constructor.
  - cbn. intuition discriminate.
Defined.

(** ** Negative cut-offs *)

Lemma py_slice_negative {A : Type} (df : list A) (stop : Z) :
  stop < 0 ->
  py_slice df stop = firstn (List.length df - Z.to_nat (- stop)) df.
Proof.
  intros Hneg. unfold py_slice. now rewrite slice_stop_negative.
Qed.

Lemma py_slice_minus_one {A : Type} (df : list A) (last : A) :
  py_slice (df ++ [last]) (-1) = df.
Proof.
  rewrite py_slice_negative by lia. rewrite length_app. cbn [List.length].
  replace (List.length df + 1 - Z.to_nat (- -1))%nat with (List.length df)
    by lia.
  rewrite firstn_app, Nat.sub_diag, firstn_all. cbn. apply app_nil_r.
Qed.

(** X5.  A negative cut-off counts from the end: each chart function then
    drops the last [-cut_off] records of the frame (all of them when there
    are no more), the sorted ones before sorting.  In particular with -1, the
    default of [--cut-off], the last record of the frame is never charted. *)
Theorem negative_cutoff_drops_last_records `{Pandas}
  (series_df : list SeriesDf.Row) (author_books_df : list AuthorDf.Row)
  (cut_off : Z) :
  cut_off < 0 ->
  let k := Z.to_nat (- cut_off) in
  (avg_rating_in_series_order series_df cut_off =
     firstn (List.length series_df - k) (map series_point series_df)
   /\ avg_rating_by_popularity author_books_df cut_off =
        firstn (List.length author_books_df - k)
               (map author_point author_books_df)
   /\ series_by_average_rating series_df cut_off =
        map series_point
            (sort_values_desc SeriesDf.average_rating
               (firstn (List.length series_df - k) series_df))
   /\ author_by_average_rating author_books_df cut_off =
        map author_point
            (sort_values_desc AuthorDf.average_rating
               (firstn (List.length author_books_df - k) author_books_df)))
  /\ (forall last,
        avg_rating_in_series_order (series_df ++ [last]) (-1) =
          map series_point series_df
        /\ series_by_average_rating (series_df ++ [last]) (-1) =
             map series_point
                 (sort_values_desc SeriesDf.average_rating series_df))
  /\ (forall last,
        avg_rating_by_popularity (author_books_df ++ [last]) (-1) =
          map author_point author_books_df
        /\ author_by_average_rating (author_books_df ++ [last]) (-1) =
             map author_point
                 (sort_values_desc AuthorDf.average_rating author_books_df)).
Proof.
  intros Hneg k. split; [| split].
  - unfold avg_rating_in_series_order, avg_rating_by_popularity,
      series_by_average_rating, author_by_average_rating.
    rewrite !py_slice_negative by assumption. now rewrite !length_map.
  - intros last.
    unfold avg_rating_in_series_order, series_by_average_rating.
    now rewrite py_slice_map, !py_slice_minus_one.
  - intros last.
    unfold avg_rating_by_popularity, author_by_average_rating.
    now rewrite py_slice_map, !py_slice_minus_one.
Qed.

Lemma negative_cutoff_drops_last_records_witness :
  (-2) < 0 /\
  avg_rating_in_series_order rows_ABC (-2) =
    firstn 1 (map series_point rows_ABC).
Proof.
  split; [lia |].
  exact (proj1 (proj1 (@negative_cutoff_drops_last_records stable_pandas
                         rows_ABC [] (-2) ltac:(lia)))).
Defined.

(** ** What the cut-off prompt draws *)

Lemma prompt_loop_until_cancel `{Pandas} (chart : Z -> Chart) :
  (forall ch, plot_show ch = Ok tt) ->
  forall lines ns,
    Forall2 (fun line n => new_cut_off line = Ok n /\ n <> 0) lines ns ->
    forall c stop rest w,
      new_cut_off stop = Ok 0 ->
      prompt_loop (fun c => plot_scatter (chart c)) c (lines ++ stop :: rest) w
      = (Ok tt, with_charts w rest (map chart (c :: ns))).
Proof.
  intros Hplot lines ns Hlines.
  induction Hlines as [| line n lines ns [Hn Hnz] _ IH];
    intros c stop rest w Hstop; cbn [app prompt_loop];
    unfold plot_scatter at 1; rewrite Hplot.
  - rewrite Hstop. reflexivity.
  - rewrite Hn. destruct (Z.eqb_spec n 0) as [-> | _]; [contradiction |].
    rewrite IH by exact Hstop. unfold with_charts, set_stdin, add_chart.
    cbn [requests stdin charts map]. now rewrite <- app_assoc.
Qed.

Lemma prompt_loop_until_end_of_input `{Pandas} (chart : Z -> Chart) :
  (forall ch, plot_show ch = Ok tt) ->
  forall lines ns,
    Forall2 (fun line n => new_cut_off line = Ok n /\ n <> 0) lines ns ->
    forall c w,
      prompt_loop (fun c => plot_scatter (chart c)) c lines w
      = (Raise EOFError, with_charts w [] (map chart (c :: ns))).
Proof.
  intros Hplot lines ns Hlines.
  induction Hlines as [| line n lines ns [Hn Hnz] _ IH]; intros c w;
    cbn [prompt_loop]; unfold plot_scatter at 1; rewrite Hplot.
  - reflexivity.
  - rewrite Hn. destruct (Z.eqb_spec n 0) as [-> | _]; [contradiction |].
    rewrite IH. unfold with_charts, set_stdin, add_chart.
    cbn [requests stdin charts map]. now rewrite <- app_assoc.
Qed.

(** X6.  In series mode with the cut-off prompt enabled and a plotting call
    that succeeds, the listing is fetched and converted once; then one chart is
    drawn for the initial cut-off and one more for every non-zero integer line
    read, each from that same frame with the line's value as cut-off, with no
    further request.  An empty line or a line reading as 0 ends the run
    normally, leaving the lines after it unread; if the console input ends
    first the run ends with [EOFError] after those charts. *)
Theorem series_prompt_redraws_fetched_frame `{Pandas} (gc : GoodreadsClient)
  (url : string) (series_id c : Z) (sort : bool) (works : list SeriesWork)
  (series_df : list SeriesDf.Row) (lines : list string) (ns : list Z)
  (w w1 : World) :
  (forall ch, plot_show ch = Ok tt) ->
  series_url_to_series_id url = Ok series_id ->
  series_all_pages gc series_id w = (Ok works, w1) ->
  series_dataframe (series_books works) = Ok series_df ->
  Forall2 (fun line n => new_cut_off line = Ok n /\ n <> 0) lines ns ->
  (forall stop rest,
     new_cut_off stop = Ok 0 ->
     stdin w1 = lines ++ stop :: rest ->
     graph_series gc url c true sort w =
       (Ok tt, with_charts w1 rest (map (series_chart sort series_df) (c :: ns))))
  /\ (stdin w1 = lines ->
      graph_series gc url c true sort w =
        (Raise EOFError,
         with_charts w1 [] (map (series_chart sort series_df) (c :: ns)))).
Proof.
  intros Hplot Hid Hall Hdf Hlines.
  assert (Hrun : graph_series gc url c true sort w =
                 prompt_loop (fun c => plot_scatter (series_chart sort series_df c))
                             c (stdin w1) w1).
  { unfold graph_series, bind, lift. rewrite Hid, Hall, Hdf.
    unfold cutoff_loop. destruct sort; reflexivity. }
  split.
  - intros stop rest Hstop Hin. rewrite Hrun, Hin.
    now apply prompt_loop_until_cancel.
  - intros Hin. rewrite Hrun, Hin. now apply prompt_loop_until_end_of_input.
Qed.

Lemma series_prompt_redraws_fetched_frame_witness :
  @graph_series stable_pandas (series_client "3" works_ABC) ex_series_url
     1 true false (set_stdin empty_world ["10"; "-1"; ""; "5"]) =
    (Ok tt,
     with_charts (add_requests (set_stdin empty_world ["10"; "-1"; ""; "5"])
                               [series_request 49397 1])
                 ["5"]
                 [[point_A];
                  [point_A; point_B; ("C", Fin (4 # 1))];
                  [point_A; point_B]]).
Proof.
  set (w := set_stdin empty_world ["10"; "-1"; ""; "5"]).
  set (series_df := match series_dataframe (series_books works_ABC) with
                    | Ok df => df
                    | Raise _ => []
                    end).
  rewrite (proj1 (@series_prompt_redraws_fetched_frame stable_pandas
                    (series_client "3" works_ABC) ex_series_url 49397 1 false
                    works_ABC series_df ["10"; "-1"] [10; -1] w
                    (add_requests w [series_request 49397 1])
                    ltac:(reflexivity) ltac:(vm_compute; reflexivity)
                    ltac:(vm_compute; reflexivity)
                    ltac:(vm_compute; reflexivity)
                    ltac:(repeat constructor; discriminate))
                 "" ["5"] ltac:(reflexivity) ltac:(reflexivity)).
  vm_compute. reflexivity.
Defined.

(** X7.  The same in author mode: the books are fetched, filtered and
    converted once, and every non-zero integer line read at the prompt draws
    one more chart of that frame; an empty line or 0 ends the run normally and
    the end of the console input ends it with [EOFError]. *)
Theorem author_prompt_redraws_fetched_frame `{Pandas} (gc : GoodreadsClient)
  (url : string) (author_id c m : Z) (sort : bool)
  (books : list GoodreadsBook) (author_books_df : list AuthorDf.Row)
  (lines : list string) (ns : list Z) (w w1 : World) :
  (forall ch, plot_show ch = Ok tt) ->
  author_url_to_author_id url = Ok author_id ->
  author_books_all_pages gc author_id w = (Ok books, w1) ->
  author_dataframe (filter (author_filter author_id m) books) =
    Ok author_books_df ->
  Forall2 (fun line n => new_cut_off line = Ok n /\ n <> 0) lines ns ->
  (forall stop rest,
     new_cut_off stop = Ok 0 ->
     stdin w1 = lines ++ stop :: rest ->
     graph_author gc url c true sort m w =
       (Ok tt,
        with_charts w1 rest (map (author_chart sort author_books_df) (c :: ns))))
  /\ (stdin w1 = lines ->
      graph_author gc url c true sort m w =
        (Raise EOFError,
         with_charts w1 [] (map (author_chart sort author_books_df) (c :: ns)))).
Proof.
  intros Hplot Hid Hall Hdf Hlines.
  assert (Hrun : graph_author gc url c true sort m w =
                 prompt_loop
                   (fun c => plot_scatter (author_chart sort author_books_df c))
                   c (stdin w1) w1).
  { unfold graph_author, bind, lift. rewrite Hid, Hall, Hdf.
    unfold cutoff_loop. destruct sort; reflexivity. }
  split.
  - intros stop rest Hstop Hin. rewrite Hrun, Hin.
    now apply prompt_loop_until_cancel.
  - intros Hin. rewrite Hrun, Hin. now apply prompt_loop_until_end_of_input.
Qed.

Lemma author_prompt_redraws_fetched_frame_witness :
  fst (@graph_author stable_pandas
         (author_client "1" [] [book_dict_of "7" "X" 5 [2565]])
         ex_author_url 3 true false 1 (set_stdin empty_world ["2"])) =
    Raise EOFError.
Proof.
  set (w := set_stdin empty_world ["2"]).
  set (gc := author_client "1" [] [book_dict_of "7" "X" 5 [2565]]).
  destruct (author_books_all_pages gc 2565 w) as [r w1] eqn:Hall.
  vm_compute in Hall. injection Hall as <- <-.
  rewrite (proj2 (@author_prompt_redraws_fetched_frame stable_pandas gc
                    ex_author_url 2565 3 1 false _ _ ["2"] [2] w _
                    ltac:(reflexivity) ltac:(vm_compute; reflexivity)
                    ltac:(vm_compute; reflexivity)
                    ltac:(vm_compute; reflexivity)
                    ltac:(repeat constructor; discriminate))
                 ltac:(reflexivity)).
  reflexivity.
Defined.

(** ** Nothing is drawn before the whole listing is in *)

Lemma draws_nothing_lift {A : Type} (r : result A) : draws_nothing (lift r).
Proof. intros w. reflexivity. Qed.

Lemma draws_nothing_ret {A : Type} (a : A) : draws_nothing (ret a).
Proof. intros w. reflexivity. Qed.

Lemma draws_nothing_request (gc : GoodreadsClient) (r : Request) :
  draws_nothing (request gc r).
Proof. intros w. reflexivity. Qed.

Lemma draws_nothing_bind {A B : Type} (m : M A) (k : A -> M B) :
  draws_nothing m -> (forall a, draws_nothing (k a)) ->
  draws_nothing (bind m k).
Proof.
  intros Hm Hk w. unfold bind. specialize (Hm w).
  destruct (m w) as [[a | e] w1]; simpl in *; [| exact Hm].
  now rewrite (Hk a w1).
Qed.

Lemma draws_nothing_mapM {A B : Type} (f : A -> M B) (l : list A) :
  (forall x, draws_nothing (f x)) -> draws_nothing (mapM f l).
Proof.
  intros Hf. induction l as [| x l IH]; cbn [mapM];
    [apply draws_nothing_ret |].
  apply draws_nothing_bind; [apply Hf |]. intros y.
  apply draws_nothing_bind; [exact IH |]. intros ys. apply draws_nothing_ret.
Qed.

Lemma draws_nothing_series_all_pages (gc : GoodreadsClient) (series_id : Z) :
  draws_nothing (series_all_pages gc series_id).
Proof.
  assert (Hpage : forall p, draws_nothing (series_page gc series_id p)).
  { intros p. apply draws_nothing_bind; [apply draws_nothing_request |].
    intros resp. apply draws_nothing_lift. }
  unfold series_all_pages. apply draws_nothing_bind; [apply Hpage |].
  intros first. apply draws_nothing_bind; [apply draws_nothing_lift |].
  intros total. destruct (1 <? _)%Z; [| apply draws_nothing_ret].
  apply draws_nothing_bind; [| intros more; apply draws_nothing_ret].
  apply draws_nothing_mapM. intros p. unfold series_works_of_page.
  apply draws_nothing_bind; [apply Hpage | intros; apply draws_nothing_ret].
Qed.

Lemma draws_nothing_author_books_all_pages (gc : GoodreadsClient)
  (author_id : Z) :
  draws_nothing (author_books_all_pages gc author_id).
Proof.
  unfold author_books_all_pages, author_books_total_pages.
  apply draws_nothing_bind.
  - apply draws_nothing_bind; [apply draws_nothing_request |]. intros resp.
    apply draws_nothing_bind; [apply draws_nothing_lift |]. intros books.
    apply draws_nothing_bind; [apply draws_nothing_lift |]. intros total.
    apply draws_nothing_ret.
  - intros pages.
    apply draws_nothing_bind; [| intros pp; apply draws_nothing_ret].
    apply draws_nothing_mapM. intros p. unfold author_books_for_page.
    apply draws_nothing_bind; [apply draws_nothing_request |]. intros resp.
    apply draws_nothing_bind; [apply draws_nothing_lift |]. intros books.
    apply draws_nothing_lift.
Qed.

(** X8.  Retrieval is all or nothing for the charts: whenever a run of
    [graph_series] or [graph_author] has drawn anything, the id was extracted,
    every page request of the listing was answered and decoded, and the whole
    frame was converted; a failure at any of these steps ends the run with no
    chart drawn. *)
Theorem chart_needs_full_retrieval `{Pandas} (gc : GoodreadsClient)
  (url : string) (c m : Z) (p s : bool) (w : World) :
  (charts (snd (graph_series gc url c p s w)) <> charts w ->
   exists series_id works w1 series_df,
     series_url_to_series_id url = Ok series_id
     /\ series_all_pages gc series_id w = (Ok works, w1)
     /\ series_dataframe (series_books works) = Ok series_df
     /\ charts w1 = charts w)
  /\ (charts (snd (graph_author gc url c p s m w)) <> charts w ->
      exists author_id books w1 author_books_df,
        author_url_to_author_id url = Ok author_id
        /\ author_books_all_pages gc author_id w = (Ok books, w1)
        /\ author_dataframe (filter (author_filter author_id m) books) =
             Ok author_books_df
        /\ charts w1 = charts w).
Proof.
  split.
  - unfold graph_series, bind, lift.
    destruct (series_url_to_series_id url) as [series_id | e];
      [| intros Hdrawn; now contradiction Hdrawn].
    pose proof (draws_nothing_series_all_pages gc series_id w) as Hsame.
    destruct (series_all_pages gc series_id w) as [[works | e] w1] eqn:Hall;
      simpl in Hsame; [| intros Hdrawn; now contradiction Hdrawn].
    destruct (series_dataframe (series_books works)) as [series_df | e]
      eqn:Hdf; [| intros Hdrawn; now contradiction Hdrawn].
    intros _. now exists series_id, works, w1, series_df.
  - unfold graph_author, bind, lift.
    destruct (author_url_to_author_id url) as [author_id | e];
      [| intros Hdrawn; now contradiction Hdrawn].
    pose proof (draws_nothing_author_books_all_pages gc author_id w) as Hsame.
    destruct (author_books_all_pages gc author_id w) as [[books | e] w1]
      eqn:Hall; simpl in Hsame; [| intros Hdrawn; now contradiction Hdrawn].
    destruct (author_dataframe (filter (author_filter author_id m) books))
      as [author_books_df | e] eqn:Hdf;
      [| intros Hdrawn; now contradiction Hdrawn].
    intros _. now exists author_id, books, w1, author_books_df.
Qed.

Lemma chart_needs_full_retrieval_witness :
  exists series_id works w1 series_df,
    series_url_to_series_id ex_series_url = Ok series_id
    /\ series_all_pages (series_client "3" works_ABC) series_id empty_world =
         (Ok works, w1)
    /\ series_dataframe (series_books works) = Ok series_df
    /\ charts w1 = charts empty_world.
Proof.
  apply (proj1 (@chart_needs_full_retrieval stable_pandas
                  (series_client "3" works_ABC) ex_series_url 3 1 false false
                  empty_world)).
  vm_compute. discriminate.
Defined.

(** ** Malformed records *)

Lemma to_int64_raise (s : string) (e : exn) :
  to_int64 s = Raise e ->
  (e = ValueError /\ forall n, py_int s <> Ok n)
  \/ (e = OverflowError
      /\ exists n, py_int s = Ok n /\ ~ (- 2 ^ 63 <= n < 2 ^ 63)).
Proof.
  unfold to_int64.
  destruct (py_int_raises_value_error s) as [Hs | [n Hs]]; rewrite Hs;
    cbn [rbind].
  - intros He. injection He as <-. left. split; [reflexivity | congruence].
  - destruct (Z.leb_spec (- 2 ^ 63) n) as [Hlo | Hlo];
      destruct (Z.ltb_spec n (2 ^ 63)) as [Hhi | Hhi]; cbn [andb];
      try discriminate; intros He; injection He as <-; right;
      (split; [reflexivity | exists n; split; [reflexivity | lia]]).
Qed.

Lemma to_int64_not_literal (s : string) :
  (forall n, py_int s <> Ok n) -> to_int64 s = Raise ValueError.
Proof.
  intros Hfail. unfold to_int64.
  destruct (py_int_raises_value_error s) as [-> | [n Hs]]; [reflexivity |].
  now apply Hfail in Hs.
Qed.

Lemma rmap_raise {A B : Type} (f : A -> result B) (l : list A) (e : exn) :
  rmap f l = Raise e -> exists x, In x l /\ f x = Raise e.
Proof.
  induction l as [| x l IH]; cbn [rmap]; [discriminate |].
  destruct (f x) as [y | e'] eqn:Hx; cbn [rbind].
  - destruct (rmap f l) as [ys | e'']; cbn [rbind]; [discriminate |].
    intros He. injection He as <-. destruct (IH eq_refl) as (z & Hz & Hfz).
    exists z. split; [now right | exact Hfz].
  - intros He. injection He as <-. exists x. split; [now left | exact Hx].
Qed.

Lemma rmap_fails {A B : Type} (f : A -> result B) (l : list A) (x : A)
  (e : exn) :
  In x l -> f x = Raise e -> exists e', rmap f l = Raise e'.
Proof.
  induction l as [| y l IH]; intros Hin Hx; [contradiction |]. cbn [rmap].
  destruct (f y) as [z | e'] eqn:Hy; cbn [rbind]; [| now exists e'].
  destruct Hin as [-> | Hin]; [congruence |].
  destruct (IH Hin Hx) as (e'' & ->). cbn [rbind]. now exists e''.
Qed.

(** X9.  A single malformed entry fails the whole series run: if the rating
    sum or the rating count of any fetched work is an ASCII string that is not
    an integer literal, building the frame raises [ValueError], or
    [OverflowError] when a field converted before it does not fit 64 bits.
    Conversely the frame construction raises nothing but [AttributeError], for
    an empty listing; [ValueError], and then some field is not an integer
    literal; [OverflowError], and then some field is an integer outside
    [-2^63, 2^63); and [KeyError], when no entry carries an [average_rating]
    key. *)
Theorem malformed_series_work_fails_the_run (books : list SeriesDf.Book) :
  (forall b,
     In b books ->
     (is_ascii (SeriesDf.b_ratings_sum b)
      /\ forall n, py_int (SeriesDf.b_ratings_sum b) <> Ok n)
     \/ (is_ascii (SeriesDf.b_ratings_count b)
         /\ forall n, py_int (SeriesDf.b_ratings_count b) <> Ok n) ->
     series_dataframe books = Raise ValueError
     \/ series_dataframe books = Raise OverflowError)
  /\ (forall e,
        series_dataframe books = Raise e ->
        (e = AttributeError /\ books = [])
        \/ (e = ValueError
            /\ exists b,
                 In b books
                 /\ ((forall n, py_int (SeriesDf.b_ratings_sum b) <> Ok n)
                     \/ forall n, py_int (SeriesDf.b_ratings_count b) <> Ok n))
        \/ (e = OverflowError
            /\ exists b n,
                 In b books
                 /\ (py_int (SeriesDf.b_ratings_sum b) = Ok n
                     \/ py_int (SeriesDf.b_ratings_count b) = Ok n)
                 /\ ~ (- 2 ^ 63 <= n < 2 ^ 63))
        \/ (e = KeyError /\ has_average_rating books = false)).
Proof.
  assert (Hcases : forall e,
    series_dataframe books = Raise e ->
    (e = AttributeError /\ books = [])
    \/ (exists b, In b books /\ to_int64 (SeriesDf.b_ratings_sum b) = Raise e)
    \/ (exists b, In b books
                  /\ to_int64 (SeriesDf.b_ratings_count b) = Raise e)
    \/ (e = KeyError /\ has_average_rating books = false)).
  { intros e. unfold series_dataframe, column.
    destruct books as [| b0 books']; cbn [rbind].
    - intros He. injection He as <-. now left.
    - set (books := b0 :: books') in *.
      destruct (rmap to_int64 (map SeriesDf.b_ratings_sum books))
        as [sums | e1] eqn:Hsums; cbn [rbind].
      + destruct (rmap to_int64 (map SeriesDf.b_ratings_count books))
          as [counts | e2] eqn:Hcounts; cbn [rbind].
        * destruct (has_average_rating books) eqn:Hcol; [discriminate |].
          intros He. injection He as <-. right. right. right. now split.
        * intros He. injection He as <-. right. right. left.
          apply rmap_raise in Hcounts. destruct Hcounts as (x & Hx & Hfx).
          apply in_map_iff in Hx. destruct Hx as (b & <- & Hb). now exists b.
      + intros He. injection He as <-. right. left.
        apply rmap_raise in Hsums. destruct Hsums as (x & Hx & Hfx).
        apply in_map_iff in Hx. destruct Hx as (b & <- & Hb). now exists b. }
  split.
  - intros b Hin Hbad.
    assert (Hfails : exists e, series_dataframe books = Raise e).
    { unfold series_dataframe, column.
      destruct books as [| b0 books']; [contradiction |]. cbn [rbind].
      set (books := b0 :: books') in *.
      destruct (rmap to_int64 (map SeriesDf.b_ratings_sum books))
        as [sums | e1] eqn:Hsums; cbn [rbind]; [| now exists e1].
      destruct (rmap to_int64 (map SeriesDf.b_ratings_count books))
        as [counts | e2] eqn:Hcounts; cbn [rbind]; [| now exists e2].
      exfalso. destruct Hbad as [[_ Hsum] | [_ Hcount]].
      - destruct (rmap_fails to_int64 (map SeriesDf.b_ratings_sum books)
                    (SeriesDf.b_ratings_sum b) ValueError) as (e' & He');
          [now apply in_map | now apply to_int64_not_literal | congruence].
      - destruct (rmap_fails to_int64 (map SeriesDf.b_ratings_count books)
                    (SeriesDf.b_ratings_count b) ValueError) as (e' & He');
          [now apply in_map | now apply to_int64_not_literal | congruence]. }
    destruct Hfails as (e & He). rewrite He.
    destruct (Hcases e He)
      as [[-> Hnil] | [(b' & _ & Hb') | [(b' & _ & Hb') | [-> Hcol]]]].
    + subst books. contradiction.
    + apply to_int64_raise in Hb'. destruct Hb' as [[-> _] | [-> _]]; auto.
    + apply to_int64_raise in Hb'. destruct Hb' as [[-> _] | [-> _]]; auto.
    + exfalso. revert He. unfold series_dataframe, column.
      destruct books as [| b0 books']; [contradiction |]. cbn [rbind].
      set (books := b0 :: books') in *.
      destruct (rmap to_int64 (map SeriesDf.b_ratings_sum books))
        as [sums | e1] eqn:Hsums; cbn [rbind].
      * destruct (rmap to_int64 (map SeriesDf.b_ratings_count books))
          as [counts | e2] eqn:Hcounts; cbn [rbind].
        -- destruct Hbad as [[_ Hsum] | [_ Hcount]].
           ++ destruct (rmap_fails to_int64 (map SeriesDf.b_ratings_sum books)
                          (SeriesDf.b_ratings_sum b) ValueError)
                as (e' & He');
                [now apply in_map | now apply to_int64_not_literal
                 | congruence].
           ++ destruct (rmap_fails to_int64 (map SeriesDf.b_ratings_count books)
                          (SeriesDf.b_ratings_count b) ValueError)
                as (e' & He');
                [now apply in_map | now apply to_int64_not_literal
                 | congruence].
        -- intros He. injection He as ->. apply rmap_raise in Hcounts.
           destruct Hcounts as (x & _ & Hfx). apply to_int64_raise in Hfx.
           destruct Hfx as [[Hk _] | [Hk _]]; discriminate Hk.
      * intros He. injection He as ->. apply rmap_raise in Hsums.
        destruct Hsums as (x & _ & Hfx). apply to_int64_raise in Hfx.
        destruct Hfx as [[Hk _] | [Hk _]]; discriminate Hk.
  - intros e He.
    destruct (Hcases e He)
      as [Hempty | [(b & Hb & Hfb) | [(b & Hb & Hfb) | Hkey]]].
    + now left.
    + apply to_int64_raise in Hfb.
      destruct Hfb as [[-> Hfail] | [-> (n & Hn & Hout)]].
      * right. left. split; [reflexivity |]. exists b. split; [exact Hb |].
        now left.
      * right. right. left. split; [reflexivity |]. exists b, n.
        split; [exact Hb |]. split; [now left | exact Hout].
    + apply to_int64_raise in Hfb.
      destruct Hfb as [[-> Hfail] | [-> (n & Hn & Hout)]].
      * right. left. split; [reflexivity |]. exists b. split; [exact Hb |].
        now right.
      * right. right. left. split; [reflexivity |]. exists b, n.
        split; [exact Hb |]. split; [now right | exact Hout].
    + now right; right; right.
Qed.

Lemma malformed_series_work_fails_the_run_witness :
  series_dataframe
    (series_books [series_work_of "A" "7" "2"; series_work_of "B" "n/a" "1"]) =
    Raise ValueError
  \/ series_dataframe
       (series_books [series_work_of "A" "7" "2"; series_work_of "B" "n/a" "1"])
     = Raise OverflowError.
Proof.
  apply (proj1 (malformed_series_work_fails_the_run _)
               (SeriesDf.Build_Book "B" "n/a" "1" (Some "0.0") "1")).
  - right. left. reflexivity.
  - left. split.
    + repeat constructor.
    + intros n Hn. vm_compute in Hn. discriminate Hn.
Defined.

(** X10.  When the listing has books but none passes the author filter (the
    minimum is too high, or the queried author is credited on none), the
    author run does not draw an empty chart: building the frame from no books
    raises [AttributeError], after all the pages were requested. *)
Theorem author_with_no_passing_book_raises `{Pandas} (gc : GoodreadsClient)
  (url : string) (author_id c m : Z) (p s : bool)
  (books : list GoodreadsBook) (w w1 : World) :
  author_url_to_author_id url = Ok author_id ->
  author_books_all_pages gc author_id w = (Ok books, w1) ->
  Forall (fun b => In author_id (authors b) -> ratings_count b <= m) books ->
  graph_author gc url c p s m w = (Raise AttributeError, w1).
Proof.
  intros Hid Hall Hnone. unfold graph_author, bind, lift.
  rewrite Hid, Hall.
  assert (Hempty : filter (author_filter author_id m) books = []).
  { clear Hall. induction Hnone as [| b books Hb _ IH]; [reflexivity |].
    cbn [filter]. rewrite IH.
    destruct (author_filter author_id m b) eqn:Hf; [| reflexivity].
    exfalso. unfold author_filter in Hf. apply andb_true_iff in Hf.
    destruct Hf as [Hcred Hgt]. apply Z.gtb_gt in Hgt.
    apply existsb_exists in Hcred. destruct Hcred as (x & Hin & Heq).
    apply Z.eqb_eq in Heq. subst x. specialize (Hb Hin). lia. }
  now rewrite Hempty.
Qed.

Lemma author_with_no_passing_book_raises_witness :
  fst (@graph_author stable_pandas
         (author_client "1" [] [book_dict_of "7" "X" 5 [2565]])
         ex_author_url (-1) false false 5 empty_world) = Raise AttributeError.
Proof.
  set (gc := author_client "1" [] [book_dict_of "7" "X" 5 [2565]]).
  destruct (author_books_all_pages gc 2565 empty_world) as [r w1] eqn:Hall.
  vm_compute in Hall. injection Hall as <- <-.
  rewrite (@author_with_no_passing_book_raises stable_pandas gc ex_author_url
             2565 (-1) 5 false false _ empty_world _
             ltac:(vm_compute; reflexivity) ltac:(vm_compute; reflexivity)
             ltac:(repeat constructor; cbn; lia)).
  reflexivity.
Defined.

(** ** The prompt for more URLs *)

Lemma split_spaces_leading_space (line : string) :
  split_spaces (String " " line) = "" :: split_spaces line.
Proof. reflexivity. Qed.

Lemma graph_series_empty_url `{Pandas} (gc : GoodreadsClient) (c : Z)
  (p s : bool) (w : World) :
  graph_series gc "" c p s w = (Raise AttributeError, w).
Proof. reflexivity. Qed.

Lemma graph_author_empty_url `{Pandas} (gc : GoodreadsClient) (c m : Z)
  (p s : bool) (w : World) :
  graph_author gc "" c p s m w = (Raise AttributeError, w).
Proof. reflexivity. Qed.

(** X11.  At the prompt for more URLs the line is split at every single
    space, so a line that starts with a space yields an empty first URL:
    the run ends there with the extractor's [AttributeError], before any
    request, and the URLs typed after the space are not processed. *)
Theorem leading_space_in_more_urls_raises `{Pandas} (args : Args)
  (gc : GoodreadsClient) (line : string) (rest : list string) (w : World) :
  stdin w = String " " line :: rest ->
  prompt_more true (graph_series_url args gc) w =
    (Raise AttributeError, set_stdin w rest)
  /\ prompt_more true (graph_author_url args gc) w =
       (Raise AttributeError, set_stdin w rest).
Proof.
  intros Hin. unfold prompt_more. rewrite Hin.
  cbn [List.length more_urls_loop].
  split; unfold bind at 1, input; rewrite Hin;
    cbn [String.eqb Ascii.eqb]; rewrite split_spaces_leading_space;
    cbn [for_each]; unfold bind, graph_series_url, graph_author_url.
  - now rewrite graph_series_empty_url.
  - now rewrite graph_author_empty_url.
Qed.

Lemma leading_space_in_more_urls_raises_witness :
  @prompt_more true
     (@graph_series_url stable_pandas (default_args false [])
        (series_client "3" works_ABC))
     (set_stdin empty_world [" " ++ ex_series_url; ""])%string =
    (Raise AttributeError, set_stdin empty_world [""]).
Proof.
  apply (proj1 (@leading_space_in_more_urls_raises stable_pandas
                  (default_args false []) (series_client "3" works_ABC)
                  ex_series_url [""]
                  (set_stdin empty_world [" " ++ ex_series_url; ""]%string)
                  eq_refl)).
Defined.

(** ** Page order *)

Lemma mapM_series_pages_by_request (gc : GoodreadsClient)
  (answer : Request -> result Response) (series_id : Z) :
  answers_by_request gc answer ->
  (forall p, exists c ws,
      answer (series_request series_id p) = Ok (SeriesShow c ws)) ->
  forall ps w,
    mapM (series_works_of_page gc series_id) ps w =
      (Ok (map (fun p => series_work_of_answer
                           (answer (series_request series_id p))) ps),
       add_requests w (map (series_request series_id) ps)).
Proof.
  intros Hby Hok. induction ps as [| p ps IH]; intros w.
  - simpl. unfold ret. now rewrite add_requests_nil.
  - destruct (Hok p) as (c & ws & Hans). cbn [mapM map].
    unfold bind at 1. unfold series_works_of_page at 1. unfold bind at 1.
    rewrite (series_page_ok gc series_id p w c ws)
      by now rewrite Hby.
    unfold ret at 1. unfold bind at 1. rewrite IH. unfold ret.
    rewrite add_requests_app, Hans. reflexivity.
Qed.

Lemma mapM_author_pages_by_request (gc : GoodreadsClient)
  (answer : Request -> result Response) (author_id : Z) :
  answers_by_request gc answer ->
  (forall p, exists t bs gbs,
      answer (author_page_request author_id p) = Ok (AuthorList t bs)
      /\ rmap goodreads_book bs = Ok gbs) ->
  forall ps w,
    mapM (author_books_for_page gc author_id) ps w =
      (Ok (map (fun p => books_of_answer
                           (answer (author_page_request author_id p))) ps),
       add_requests w (map (author_page_request author_id) ps)).
Proof.
  intros Hby Hok. induction ps as [| p ps IH]; intros w.
  - simpl. unfold ret. now rewrite add_requests_nil.
  - destruct (Hok p) as (t & bs & gbs & Hans & Hbooks). cbn [mapM map].
    unfold bind at 1.
    rewrite (author_books_for_page_ok gc author_id p w t bs gbs)
      by (try rewrite Hby; assumption).
    assert (Hgbs : books_of_answer (answer (author_page_request author_id p))
                   = gbs).
    { unfold books_of_answer. now rewrite Hans, Hbooks. }
    unfold bind at 1. rewrite IH. unfold ret.
    now rewrite add_requests_app, Hgbs.
Qed.



(** ** The requests a run makes *)

Lemma only_requests_lift {A : Type} (ok : Request -> Prop) (r : result A) :
  only_requests ok (lift r).
Proof. intros w. exists []. simpl. now rewrite app_nil_r. Qed.

Lemma only_requests_ret {A : Type} (ok : Request -> Prop) (a : A) :
  only_requests ok (ret a).
Proof. intros w. exists []. simpl. now rewrite app_nil_r. Qed.

Lemma only_requests_request (ok : Request -> Prop) (gc : GoodreadsClient)
  (r : Request) :
  ok r -> only_requests ok (request gc r).
Proof. intros Hr w. exists [r]. simpl. split; [reflexivity | now constructor]. Qed.

Lemma only_requests_bind {A B : Type} (ok : Request -> Prop) (m : M A)
  (k : A -> M B) :
  only_requests ok m -> (forall a, only_requests ok (k a)) ->
  only_requests ok (bind m k).
Proof.
  intros Hm Hk w. unfold bind. destruct (Hm w) as (l1 & Hl1 & Hok1).
  destruct (m w) as [[a | e] w1]; simpl in *; [| now exists l1].
  destruct (Hk a w1) as (l2 & Hl2 & Hok2).
  exists (l1 ++ l2). rewrite Hl2, Hl1, app_assoc.
  split; [reflexivity | now apply Forall_app].
Qed.

Lemma only_requests_mapM {A B : Type} (ok : Request -> Prop) (f : A -> M B)
  (l : list A) :
  Forall (fun x => only_requests ok (f x)) l -> only_requests ok (mapM f l).
Proof.
  induction 1 as [| x l Hx _ IH]; cbn [mapM]; [apply only_requests_ret |].
  apply only_requests_bind; [exact Hx |]. intros y.
  apply only_requests_bind; [exact IH |]. intros ys. apply only_requests_ret.
Qed.

Lemma only_requests_plot_scatter `{Pandas} (ok : Request -> Prop) (c : Chart) :
  only_requests ok (plot_scatter c).
Proof. intros w. exists []. simpl. now rewrite app_nil_r. Qed.

Lemma only_requests_prompt_loop (ok : Request -> Prop) (graph : Z -> M unit) :
  (forall c, only_requests ok (graph c)) ->
  forall lines c, only_requests ok (prompt_loop graph c lines).
Proof.
  intros Hg. induction lines as [| line rest IH]; intros c w;
    cbn [prompt_loop]; destruct (Hg c w) as (l1 & Hl1 & Hok1);
    destruct (graph c w) as [[u | e] w1]; simpl in *; try now exists l1.
  destruct (new_cut_off line) as [n | e]; [| now exists l1].
  destruct (n =? 0)%Z; [now exists l1 |].
  destruct (IH n (set_stdin w1 rest)) as (l2 & Hl2 & Hok2).
  exists (l1 ++ l2). rewrite Hl2. simpl. rewrite Hl1, app_assoc.
  split; [reflexivity | now apply Forall_app].
Qed.

Lemma only_requests_cutoff_loop (ok : Request -> Prop) (graph : Z -> M unit)
  (prompt : bool) (c : Z) :
  (forall c, only_requests ok (graph c)) ->
  only_requests ok (cutoff_loop graph prompt c).
Proof.
  intros Hg w. unfold cutoff_loop. destruct prompt; [| apply Hg].
  now apply only_requests_prompt_loop.
Qed.

Lemma in_py_range (lo hi p : Z) : In p (py_range lo hi) -> lo <= p < hi.
Proof.
  unfold py_range. intros Hin. apply in_map_iff in Hin.
  destruct Hin as (k & <- & Hk). apply in_seq in Hk. lia.
Qed.

(** X13.  A run only reads the listing it was asked for.  Every request
    [graph_series] makes is a [series/show] request for the id extracted from
    its URL with a page number of at least 1, and every request [graph_author]
    makes is an [author/list] request for the extracted id, without a page or
    with a page number of at least 1; a URL from which no id can be extracted
    leads to no request at all. *)
Theorem runs_request_only_their_listing `{Pandas} (gc : GoodreadsClient)
  (url : string) (c m : Z) (p s : bool) :
  only_requests
    (fun r => endpoint r = "series/show"
              /\ series_url_to_series_id url = Ok (req_id r)
              /\ exists page, req_page r = Some page /\ 1 <= page)
    (graph_series gc url c p s)
  /\ only_requests
       (fun r => endpoint r = "author/list"
                 /\ author_url_to_author_id url = Ok (req_id r)
                 /\ (req_page r = None
                     \/ exists page, req_page r = Some page /\ 1 <= page))
       (graph_author gc url c p s m).
Proof.
  split.
  - unfold graph_series. unfold bind at 1, lift at 1.
    destruct (series_url_to_series_id url) as [series_id | e] eqn:Hid.
    + set (ok := fun r : Request => _).
      assert (Hpage : forall page, 1 <= page ->
                only_requests ok (series_page gc series_id page)).
      { intros page Hpage. apply only_requests_bind.
        - apply only_requests_request. unfold ok. cbn.
          split; [reflexivity | split; [reflexivity |]]. now exists page.
        - intros resp. apply only_requests_lift. }
      change (only_requests ok
                (works <- series_all_pages gc series_id ;;
                 df <- lift (series_dataframe (series_books works)) ;;
                 cutoff_loop
                   (fun cut_off =>
                      if s
                      then graph_series_sort_by_average_rating df cut_off
                      else graph_avg_rating_by_series_order df cut_off)
                   p c)).
      apply only_requests_bind.
      * unfold series_all_pages.
        apply only_requests_bind; [apply Hpage; lia |]. intros first.
        apply only_requests_bind; [apply only_requests_lift |]. intros total.
        destruct (1 <? _)%Z; [| apply only_requests_ret].
        apply only_requests_bind; [| intros; apply only_requests_ret].
        apply only_requests_mapM. apply Forall_forall. intros page Hin.
        apply in_py_range in Hin. unfold series_works_of_page.
        apply only_requests_bind; [apply Hpage; lia |].
        intros; apply only_requests_ret.
      * intros works.
        apply only_requests_bind; [apply only_requests_lift |]. intros df.
        apply only_requests_cutoff_loop. intros c'.
        destruct s; apply only_requests_plot_scatter.
    + intros w. exists []. simpl. now rewrite app_nil_r.
  - unfold graph_author. unfold bind at 1, lift at 1.
    destruct (author_url_to_author_id url) as [author_id | e] eqn:Hid.
    + set (ok := fun r : Request => _).
      change (only_requests ok
                (books <- author_books_all_pages gc author_id ;;
                 df <- lift (author_dataframe
                               (filter (author_filter author_id m) books)) ;;
                 cutoff_loop
                   (fun cut_off =>
                      if s
                      then graph_author_sort_by_average_rating df cut_off
                      else graph_avg_rating_by_popularity df cut_off)
                   p c)).
      apply only_requests_bind.
      * unfold author_books_all_pages, author_books_total_pages.
        apply only_requests_bind.
        -- apply only_requests_bind.
           ++ apply only_requests_request. unfold ok. cbn.
              split; [reflexivity | split; [reflexivity | now left]].
           ++ intros resp.
              apply only_requests_bind; [apply only_requests_lift |].
              intros books.
              apply only_requests_bind; [apply only_requests_lift |].
              intros total. apply only_requests_ret.
        -- intros pages.
           apply only_requests_bind; [| intros; apply only_requests_ret].
           apply only_requests_mapM. apply Forall_forall. intros page Hin.
           apply in_py_range in Hin. unfold author_books_for_page.
           apply only_requests_bind.
           ++ apply only_requests_request. unfold ok. cbn.
              split; [reflexivity | split; [reflexivity | right]].
              exists page. split; [reflexivity | lia].
           ++ intros resp.
              apply only_requests_bind; [apply only_requests_lift |].
              intros books. apply only_requests_lift.
      * intros books.
        apply only_requests_bind; [apply only_requests_lift |]. intros df.
        apply only_requests_cutoff_loop. intros c'.
        destruct s; apply only_requests_plot_scatter.
    + intros w. exists []. simpl. now rewrite app_nil_r.
Qed.

(** ** Where the prompt for more URLs sits *)

Lemma prompt_more_empty_line (graph : string -> M unit) (rest : list string)
  (w : World) :
  stdin w = "" :: rest ->
  prompt_more true graph w = (Ok tt, set_stdin w rest).
Proof.
  intros Hin. unfold prompt_more. rewrite Hin.
  cbn [List.length more_urls_loop]. unfold bind, input. now rewrite Hin.
Qed.

Lemma series_turns_read_one_line_each `{Pandas} (args : Args)
  (gc : GoodreadsClient) :
  prompt_more_urls args = true ->
  forall us,
    (forall url w, In url us ->
       exists w', graph_series_url args gc url w = (Ok tt, w')
                  /\ stdin w' = stdin w) ->
    forall rest w,
      stdin w = repeat "" (List.length us) ++ rest ->
      exists w', for_each us (series_turn args gc) w = (Ok tt, w')
                 /\ stdin w' = rest.
Proof.
  intros Hprompt. induction us as [| url us IH]; intros Hok rest w Hin.
  - now exists w.
  - cbn [List.length repeat app] in Hin. cbn [for_each].
    destruct (Hok url w (or_introl eq_refl)) as (w1 & Hrun & Hkeep).
    unfold bind at 1. unfold series_turn at 1. unfold bind at 1.
    rewrite Hrun, Hprompt.
    rewrite (prompt_more_empty_line _ (repeat "" (List.length us) ++ rest))
      by congruence.
    apply IH; [| reflexivity].
    intros u w0 Hu. apply Hok. now right.
Qed.

Lemma author_batch_reads_no_line `{Pandas} (args : Args)
  (gc : GoodreadsClient) :
  forall us,
    (forall url w, In url us ->
       exists w', graph_author_url args gc url w = (Ok tt, w')
                  /\ stdin w' = stdin w) ->
    forall w,
      exists w', for_each us (graph_author_url args gc) w = (Ok tt, w')
                 /\ stdin w' = stdin w.
Proof.
  induction us as [| url us IH]; intros Hok w.
  - now exists w.
  - cbn [for_each]. destruct (Hok url w (or_introl eq_refl))
      as (w1 & Hrun & Hkeep).
    unfold bind. rewrite Hrun.
    destruct (IH (fun u w0 Hu => Hok u w0 (or_intror Hu)) w1)
      as (w2 & Hrest & Hkeep2).
    exists w2. split; [exact Hrest | congruence].
Qed.

(** X14.  With [--prompt-more-urls], the two modes ask at different places.
    In series mode the prompt follows every command-line URL: if each run
    succeeds without reading the console and the user answers each prompt
    with an empty line, [main] reads as many lines as there are URLs.  In
    author mode the prompt comes once, after the whole batch: a single empty
    line ends [main]. *)
Theorem more_urls_prompt_placement `{Pandas} (args : Args)
  (gc : GoodreadsClient) (rest : list string) (w : World) :
  prompt_more_urls args = true ->
  (series args = true -> author args = false ->
   (forall url w0, In url (urls args) ->
      exists w', graph_series_url args gc url w0 = (Ok tt, w')
                 /\ stdin w' = stdin w0) ->
   stdin w = repeat "" (List.length (urls args)) ++ rest ->
   exists w', main args gc w = (Ok tt, w') /\ stdin w' = rest)
  /\ (series args = false -> author args = true ->
      (forall url w0, In url (urls args) ->
         exists w', graph_author_url args gc url w0 = (Ok tt, w')
                    /\ stdin w' = stdin w0) ->
      stdin w = "" :: rest ->
      exists w', main args gc w = (Ok tt, w') /\ stdin w' = rest).
Proof.
  intros Hprompt. split.
  - intros Hs Ha Hok Hin. unfold main. rewrite Hs, Ha.
    destruct (series_turns_read_one_line_each args gc Hprompt (urls args) Hok
                rest w Hin) as (w' & Hrun & Hrest).
    exists w'. unfold bind, ret. now rewrite Hrun.
  - intros Hs Ha Hok Hin. unfold main. rewrite Hs, Ha.
    destruct (author_batch_reads_no_line args gc (urls args) Hok w)
      as (w1 & Hrun & Hkeep).
    exists (set_stdin w1 rest). unfold bind at 1, ret at 1.
    unfold bind at 1. rewrite Hrun, Hprompt.
    rewrite (prompt_more_empty_line _ rest) by congruence.
    split; reflexivity.
Qed.

Lemma more_urls_prompt_placement_witness :
  let args :=
    {| cut_off := 3; prompt_more_urls := true; prompt_new_cutoff := false;
       sort_by_rating := false; min_num_ratings := 1;
       author := false; series := true;
       urls := [ex_series_url; ex_series_url] |} in
  exists w',
    @main stable_pandas args (series_client "3" works_ABC)
          (set_stdin empty_world [""; ""; "unread"]) = (Ok tt, w')
    /\ stdin w' = ["unread"].
Proof.
  intros args.
  apply (proj1 (@more_urls_prompt_placement stable_pandas args
                  (series_client "3" works_ABC) ["unread"]
                  (set_stdin empty_world [""; ""; "unread"]) eq_refl));
    try reflexivity.
  intros url w0 [<- | [<- | []]]; eexists; split; reflexivity.
Defined.
